(** * modelmatcher: the model reader and the rate-matrix core

    A shallow embedding of [modelmatcher/model_io.py] (the function
    [read_model]) together with the parts of the rate-matrix core that the
    specification describes and that [read_model] and the test suite call
    into ([RateMatrix.set_r_and_freq], [build_Q], [sample_count_matrix],
    [rank]).

    Layout: Python built-ins used by the reader, the exceptions, the reader
    itself, the rate-matrix core, and then the theorems. *)

From Stdlib Require Import Strings.String Strings.Ascii Lists.List.
From Stdlib Require Import ZArith NArith QArith Bool Lia.
From Stdlib Require Import Sorting.Permutation Sorting.Sorted.
From Stdlib Require Import Classes.RelationClasses.
From Stdlib Require Structures.OrderedTypeEx.
Import ListNotations.

Set Implicit Arguments.

(* ================================================================== *)
(** ** Python built-ins used by [read_model] *)

(** A [str] is given by its characters; an [ascii] stands for a code point
    below 256. *)
Module Py.

Definition code (c : ascii) : N := N_of_ascii c.

(** [str.isspace] on one character: code points 9-13, 28-32, 0x85, 0xA0. *)
Definition isspace (c : ascii) : bool :=
  let n := code c in
  ((9 <=? n) && (n <=? 13) || (28 <=? n) && (n <=? 32)
   || (n =? 133) || (n =? 160))%N.

(** [s.split()]: the maximal runs of non-whitespace characters, in order.
    [word] is the run being read. *)
Fixpoint split_from (word s : string) : list string :=
  match s with
  | EmptyString =>
      match word with EmptyString => [] | _ => [word] end
  | String c rest =>
      if isspace c then
        match word with
        | EmptyString => split_from EmptyString rest
        | _ => word :: split_from EmptyString rest
        end
      else split_from (word ++ String c EmptyString) rest
  end.

Definition split (s : string) : list string := split_from EmptyString s.

(** *** [float(str)]

    The value of a Python float read from text is the binary64 number
    nearest to the decimal literal.  The literal itself is kept here
    (sign, coefficient and power of ten); rounding is not applied, and
    nothing below compares two floats. *)
Inductive pyfloat : Type :=
| nan
| inf (negative : bool)
| finite (negative : bool) (coefficient : N) (exponent : Z).

Definition isdigit (c : ascii) : bool :=
  ((48 <=? code c) && (code c <=? 57))%N.

Definition lower (c : ascii) : ascii :=
  if ((65 <=? code c) && (code c <=? 90))%N
  then ascii_of_N (code c + 32) else c.

(** The whitespace that [float] strips: code points 9-13 and 32, and 0x85
    and 0xA0, which it first turns into spaces. *)
Definition float_space (c : ascii) : bool :=
  let n := code c in
  ((9 <=? n) && (n <=? 13) || (n =? 32) || (n =? 133) || (n =? 160))%N.

Fixpoint lstrip (l : list ascii) : list ascii :=
  match l with
  | c :: r => if float_space c then lstrip r else l
  | [] => []
  end.

Definition strip (l : list ascii) : list ascii :=
  rev (lstrip (rev (lstrip l))).

(** Underscores may only stand between two digits; they are removed.
    [prev] is the previous character, if any. *)
Fixpoint drop_underscores (prev : option ascii) (l : list ascii)
  : option (list ascii) :=
  match l with
  | [] =>
      match prev with
      | Some p => if Ascii.eqb p "_" then None else Some []
      | None => Some []
      end
  | c :: r =>
      if Ascii.eqb c "_" then
        match prev with
        | Some p => if isdigit p then drop_underscores (Some c) r else None
        | None => None
        end
      else
        let after_underscore :=
          match prev with Some p => Ascii.eqb p "_" | None => false end in
        if after_underscore && negb (isdigit c) then None
        else option_map (cons c) (drop_underscores (Some c) r)
  end.

(** The longest prefix of digits, and what follows it. *)
Fixpoint span_digits (l : list ascii) : list ascii * list ascii :=
  match l with
  | c :: r =>
      if isdigit c then let (ds, rest) := span_digits r in (c :: ds, rest)
      else ([], l)
  | [] => ([], [])
  end.

Definition digits_value (ds : list ascii) : N :=
  fold_left (fun acc c => (10 * acc + (code c - 48))%N) ds 0%N.

Definition take_sign (l : list ascii) : bool * list ascii :=
  match l with
  | c :: r =>
      if Ascii.eqb c "-" then (true, r)
      else if Ascii.eqb c "+" then (false, r)
      else (false, l)
  | [] => (false, [])
  end.

(** The exponent part: [e] or [E], an optional sign, at least one digit,
    and then the end of the text. *)
Definition parse_exponent (l : list ascii) : option Z :=
  match l with
  | [] => Some 0%Z
  | c :: r =>
      if Ascii.eqb (lower c) "e" then
        let (neg, r1) := take_sign r in
        match span_digits r1 with
        | ((_ :: _) as ds, []) =>
            let v := Z.of_N (digits_value ds) in
            Some (if neg then (- v)%Z else v)
        | _ => None
        end
      else None
  end.

(** Digits, an optional point and more digits (at least one digit in
    all), and an optional exponent. *)
Definition parse_decimal (neg : bool) (l : list ascii) : option pyfloat :=
  let (int_part, r1) := span_digits l in
  let (frac_part, r2) :=
    match r1 with
    | c :: r => if Ascii.eqb c "." then span_digits r else ([], r1)
    | [] => ([], [])
    end in
  match int_part ++ frac_part with
  | [] => None
  | ds =>
      match parse_exponent r2 with
      | Some e =>
          Some (finite neg (digits_value ds)
                       (e - Z.of_nat (List.length frac_part)))
      | None => None
      end
  end.

(** [float(s)] for a [str]: underscores are checked and removed, the
    whitespace around the text is stripped, and what is left has to be a
    signed [inf], [infinity] or [nan] in any case of letters, or a signed
    decimal number.  [None] stands for [ValueError]. *)
Definition float (s : string) : option pyfloat :=
  match drop_underscores None (list_ascii_of_string s) with
  | None => None
  | Some l =>
      let (neg, body) := take_sign (strip l) in
      let word := string_of_list_ascii (map lower body) in
      if String.eqb word "inf" || String.eqb word "infinity"
      then Some (inf neg)
      else if String.eqb word "nan" then Some nan
      else parse_decimal neg body
  end.

End Py.

(* ================================================================== *)
(** ** Exceptions and results *)

(** [IOError], [ValueError] and [IndexError] are the Python exceptions that
    [read_model] can raise itself; [IOError] is what the specification calls
    [FormatError].  [MalformedModelError] and [DegenerateInputError] belong
    to the rate-matrix core. *)
Inductive exn : Type :=
| IOError (message : string)
| ValueError (literal : string)
| IndexError
| MalformedModelError
| DegenerateInputError.

Inductive result (A : Type) : Type :=
| Ok (a : A)
| Raise (e : exn).

Arguments Ok {A} a.
Arguments Raise {A} e.

Definition bind {A B : Type} (r : result A) (k : A -> result B) : result B :=
  match r with
  | Ok a => k a
  | Raise e => Raise e
  end.

Notation "x <- r ;; k" := (bind r (fun x => k))
  (at level 61, r at next level, right associativity).

(** [list(map(f, xs))] for an [f] that may raise: the first failure wins. *)
Fixpoint mapM {A B : Type} (f : A -> result B) (xs : list A)
  : result (list B) :=
  match xs with
  | [] => Ok []
  | x :: rest => y <- f x ;; ys <- mapM f rest ;; Ok (y :: ys)
  end.

(* ================================================================== *)
(** ** [model_io.read_model] *)

(** The class [RateMatrix] as [read_model] uses it: a constructor taking the
    model name, and the method [set_r_and_freq], which updates the object or
    raises. *)
Class RateMatrixClass : Type := {
  RateMatrix : Type;
  RateMatrix_init : string -> RateMatrix;
  set_r_and_freq :
    RateMatrix -> list Py.pyfloat -> list Py.pyfloat -> result RateMatrix
}.

Definition float_or_raise (token : string) : result Py.pyfloat :=
  match Py.float token with
  | Some v => Ok v
  | None => Raise (ValueError token)
  end.

(** What one turn of the [for] loop does with [r_vals]. *)
Inductive step : Type :=
| Continue (r_vals : list Py.pyfloat)
| Break (freqs : list Py.pyfloat)
| Throw (e : exn).

(** The body of the loop.  [line[0]] raises [IndexError] on an empty
    string, which a text stream never yields. *)
Definition loop_body (line : string) (r_vals : list Py.pyfloat) : step :=
  match line with
  | EmptyString => Throw IndexError
  | String c _ =>
      if Ascii.eqb c "#" then Continue r_vals
      else
        let input_tokens := Py.split line in
        match mapM float_or_raise input_tokens with
        | Raise e => Throw e
        | Ok vals =>
            if List.length input_tokens <? 20
            then Continue (r_vals ++ vals)
            else Break vals
        end
  end.

(** How the [for] loop ends. *)
Inductive loop_exit : Type :=
| Exhausted (r_vals : list Py.pyfloat)
| Broke (r_vals freqs : list Py.pyfloat)
| Raised (e : exn).

(** The loop over the stream [h]; the second component is what is left
    unread in the stream. *)
Fixpoint for_loop (h : list string) (r_vals : list Py.pyfloat)
  : loop_exit * list string :=
  match h with
  | [] => (Exhausted r_vals, [])
  | line :: rest =>
      match loop_body line r_vals with
      | Continue r_vals' => for_loop rest r_vals'
      | Break freqs => (Broke r_vals freqs, rest)
      | Throw e => (Raised e, rest)
      end
  end.

Definition not_PAML : string := "Is the input really a PAML-formatted model?".

Section ReadModel.
Context {RM : RateMatrixClass}.

(** What [read_model] does once the loop has ended: the [else] clause of
    the loop raises, an exception of the loop body goes on, and after a
    [break] the rate matrix is made. *)
Definition finish (model_name : string) (e : loop_exit)
  : result RateMatrix :=
  match e with
  | Exhausted _ => Raise (IOError not_PAML)
  | Raised e => Raise e
  | Broke r_vals freqs =>
      set_r_and_freq (RateMatrix_init model_name) r_vals freqs
  end.

(** [read_model(h, model_name)]: the outcome, and what is left unread in
    the stream [h]. *)
Definition read_model (h : list string) (model_name : string)
  : result RateMatrix * list string :=
  let (e, rest) := for_loop h [] in (finish model_name e, rest).

End ReadModel.

(* ================================================================== *)
(** ** Vocabulary for the lines of a model file *)

(** The line starts with [#] (the test [line[0] == '#']). *)
Definition is_comment (line : string) : bool :=
  match line with
  | String c _ => Ascii.eqb c "#"
  | EmptyString => false
  end.

Definition tokens (line : string) : list string := Py.split line.

Definition is_float (token : string) : bool :=
  match Py.float token with Some _ => true | None => false end.

(** Every token of the line is accepted by [float]. *)
Definition parseable (line : string) : bool := forallb is_float (tokens line).

(** The first token of the line that [float] rejects, if there is one. *)
Definition first_bad_token (line : string) : option string :=
  find (fun t => negb (is_float t)) (tokens line).

(** The float values of the tokens of the line, in order. *)
Definition float_values (line : string) : list Py.pyfloat :=
  flat_map (fun t => match Py.float t with Some v => [v] | None => [] end)
           (tokens line).

(** A non-comment line with at least 20 tokens. *)
Definition is_frequency_line (line : string) : bool :=
  negb (is_comment line) && (20 <=? List.length (tokens line)).

(** The loop goes on after the line: the line is not empty, it is no
    frequency line, and it is a comment or all its tokens are floats. *)
Definition read_past (line : string) : bool :=
  negb (String.eqb line EmptyString)
  && negb (is_frequency_line line)
  && (is_comment line || parseable line).

(** The values that the lines contribute to [r_vals]. *)
Definition r_values (lines : list string) : list Py.pyfloat :=
  flat_map float_values (filter (fun l => negb (is_comment l)) lines).

(* ================================================================== *)
(** ** The rate-matrix core ([modelmatcher/models.py]) *)

Module Models.

Local Open Scope Q_scope.

(** Modelled from the spec: the class [RateMatrix] of
    [modelmatcher/models.py], which is not among the sources.  A model
    name, the alphabet size k fixed at construction, the flat
    lower-triangular exchangeabilities and the frequencies (section 3).
    Real numbers are exact rationals. *)
Record RateMatrix : Type := {
  name : string;
  k : nat;
  exchangeabilities : list Q;
  frequencies : list Q
}.

(** Modelled from the spec: the constructor of [RateMatrix], missing with
    the class; parameters are set later by [set_r_and_freq]. *)
Definition init (model_name : string) (size : nat) : RateMatrix :=
  {| name := model_name; k := size;
     exchangeabilities := []; frequencies := [] |}.

Definition Qsum (l : list Q) : Q := fold_right Qplus 0 l.

Definition is_negative (x : Q) : bool := negb (Qle_bool 0 x).

Definition is_zero (x : Q) : bool := Qeq_bool x 0.

Definition Qdist (x y : Q) : Q :=
  if Qle_bool y x then x - y else y - x.

(** Modelled from the spec: [RateMatrix.set_r_and_freq] (section 4.1),
    missing with the class.  It rejects a wrong number of
    exchangeabilities or of frequencies, a negative frequency and an
    all-zero frequency vector; a frequency sum further than [tolerance]
    from 1 is renormalized. *)
Definition set_r_and_freq (tolerance : Q) (rm : RateMatrix)
    (r_vals freqs : list Q) : result RateMatrix :=
  if negb (List.length r_vals =? k rm * (k rm - 1) / 2)%nat then
    Raise MalformedModelError
  else if negb (List.length freqs =? k rm)%nat then
    Raise MalformedModelError
  else if existsb is_negative freqs then Raise MalformedModelError
  else if forallb is_zero freqs then Raise MalformedModelError
  else
    let total := Qsum freqs in
    let freqs' :=
      if Qle_bool (Qdist total 1) tolerance then freqs
      else map (fun f => f / total) freqs in
    Ok {| name := name rm; k := k rm;
          exchangeabilities := r_vals; frequencies := freqs' |}.

(** Position of the pair (i, j), j < i, in the flat lower triangle. *)
Definition tri_index (i j : nat) : nat := (i * (i - 1) / 2 + j)%nat.

(** Modelled from the spec: the symmetric exchangeability of two symbols
    (section 3), read from the flat lower-triangular sequence. *)
Definition exchangeability (rm : RateMatrix) (i j : nat) : Q :=
  if (j <? i)%nat then nth (tri_index i j) (exchangeabilities rm) 0
  else nth (tri_index j i) (exchangeabilities rm) 0.

Definition frequency (rm : RateMatrix) (j : nat) : Q :=
  nth j (frequencies rm) 0.

Definition off_diagonal (rm : RateMatrix) (i j : nat) : Q :=
  exchangeability rm i j * frequency rm j.

(** The symbols other than [i]. *)
Definition others (size i : nat) : list nat :=
  filter (fun j => negb (i =? j)%nat) (seq 0 size).

(** Modelled from the spec: a row of the rate matrix Q (section 3), as
    [RateMatrix.build_Q] computes it.  Off the diagonal the entry is
    exchangeability times frequency of the target; the diagonal entry is
    minus the sum of the other entries of the row. *)
Definition row_of_Q (rm : RateMatrix) (i : nat) : list Q :=
  map (fun j =>
         if (i =? j)%nat
         then - Qsum (map (off_diagonal rm i) (others (k rm) i))
         else off_diagonal rm i j)
      (seq 0 (k rm)).

(** Modelled from the spec: [RateMatrix.build_Q] (sections 3 and 4.1),
    missing with the class: the k rows of Q. *)
Definition build_Q (rm : RateMatrix) : list (list Q) :=
  map (row_of_Q rm) (seq 0 (k rm)).

Definition entry (m : list (list Q)) (i j : nat) : Q :=
  nth j (nth i m []) 0.

(** The parameters that [set_r_and_freq] has to reject. *)
Definition malformed (rm : RateMatrix) (r_vals freqs : list Q) : Prop :=
  List.length r_vals <> (k rm * (k rm - 1) / 2)%nat
  \/ List.length freqs <> k rm
  \/ (exists f, In f freqs /\ f < 0)
  \/ Forall (fun f => f == 0) freqs.

(** A rate matrix whose parameters were accepted by [set_r_and_freq]. *)
Definition valid (tolerance : Q) (rm : RateMatrix) : Prop :=
  exists rm0 r_vals freqs, set_r_and_freq tolerance rm0 r_vals freqs = Ok rm.

(** *** Count matrices *)

Fixpoint update {A : Type} (n : nat) (f : A -> A) (l : list A) : list A :=
  match l, n with
  | [], _ => []
  | x :: rest, O => f x :: rest
  | x :: rest, S n' => x :: update n' f rest
  end.

Definition zeros (size : nat) : list (list Z) :=
  repeat (repeat 0%Z size) size.

(** Modelled from the spec: the tally of the sampler (section 4.3), one
    more observation of the pair ([a], [b]). *)
Definition tally (N : list (list Z)) (a b : nat) : list (list Z) :=
  update a (update b Z.succ) N.

Definition Zsum (l : list Z) : Z := fold_right Z.add 0%Z l.

Definition total (N : list (list Z)) : Z := Zsum (map Zsum N).

(** A [size] x [size] matrix of non-negative counts. *)
Definition is_count_matrix (size : nat) (N : list (list Z)) : Prop :=
  List.length N = size /\
  Forall (fun row => List.length row = size /\ Forall (fun c => (0 <= c)%Z) row)
         N.

(** *** Sampler *)

(** The index picked in [weights] by the point [x] of the cumulated
    weights; the last index when [x] is beyond them. *)
Fixpoint choose_from (weights : list Q) (x : Q) : nat :=
  match weights with
  | [] => O
  | w :: rest =>
      match rest with
      | [] => O
      | _ => if Qle_bool w x then S (choose_from rest (x - w)) else O
      end
  end.

(** A draw from the distribution [weights], from a uniform variate [u]
    of the unit interval. *)
Definition choose (weights : list Q) (u : Q) : nat :=
  choose_from weights (u * Qsum weights).

Section Sampler.
(** The random generator: a state and a uniform variate drawn from it. *)
Variable G : Type.
Variable random : G -> Q * G.
(** P(t) of a rate matrix (section 4.2). *)
Variable transition_matrix : RateMatrix -> Q -> list (list Q).

(** The matrix P(t) of [rm] has k rows of k entries for the branch lengths
    in use. *)
Definition square_transitions (rm : RateMatrix) (branch_lengths : list Q)
  : Prop :=
  forall t, In t branch_lengths ->
    List.length (transition_matrix rm t) = k rm /\
    Forall (fun row => List.length row = k rm) (transition_matrix rm t).

(** Modelled from the spec: one simulated site of the sampler
    (section 4.3): a start symbol from the frequencies, a branch
    length from [branch_lengths] (uniformly), an end symbol from the
    row of P(t). *)
Definition draw_site (rm : RateMatrix) (branch_lengths : list Q) (g : G)
  : (nat * nat) * G :=
  let (u1, g1) := random g in
  let a := choose (frequencies rm) u1 in
  let (u2, g2) := random g1 in
  let t := nth (choose (map (fun _ => 1) branch_lengths) u2)
               branch_lengths 0 in
  let (u3, g3) := random g2 in
  let b := choose (nth a (transition_matrix rm t) []) u3 in
  ((a, b), g3).

Fixpoint sample_sites (rm : RateMatrix) (n : nat)
    (branch_lengths : list Q) (N : list (list Z)) (g : G)
  : list (list Z) * G :=
  match n with
  | O => (N, g)
  | S n' =>
      let '((a, b), g') := draw_site rm branch_lengths g in
      sample_sites rm n' branch_lengths (tally N a b) g'
  end.

(** Modelled from the spec: [RateMatrix.sample_count_matrix]
    (section 4.3), missing with the class.  [n] sites are simulated and
    their (start, end) pairs tallied in a k x k matrix. *)
Definition sample_count_matrix (rm : RateMatrix) (n : nat)
    (branch_lengths : list Q) (g : G) : list (list Z) * G :=
  sample_sites rm n branch_lengths (zeros (k rm)) g.

End Sampler.

(** *** Model scorer *)

(** Modelled from the spec: a score result (section 3), the name of a
    model with its score; the rank is the position in the ranking. *)
Record ScoreResult : Type := {
  model_name : string;
  model_score : Q
}.

(** Modelled from the spec: the order of [rank] (section 4.4).  [a] is
    ranked before [b]: a higher score, or the same score and a name that
    is not greater. *)
Definition ranked_before (a b : ScoreResult) : bool :=
  match model_score b ?= model_score a with
  | Lt => true
  | Gt => false
  | Eq => String.leb (model_name a) (model_name b)
  end.

(** The order of a ranking in words: a strictly higher score, or an equal
    score and a name that is not greater. *)
Definition precedes (a b : ScoreResult) : Prop :=
  model_score b < model_score a
  \/ (model_score a == model_score b
      /\ String.leb (model_name a) (model_name b) = true).

Fixpoint insert (x : ScoreResult) (l : list ScoreResult)
  : list ScoreResult :=
  match l with
  | [] => [x]
  | y :: rest =>
      if ranked_before x y then x :: l else y :: insert x rest
  end.

Definition sort (l : list ScoreResult) : list ScoreResult :=
  fold_right insert [] l.

Section ModelScorer.
(** The score of a candidate against a count matrix (section 4.4). *)
Variable score : RateMatrix -> list (list Z) -> result Q.

Definition score_result (count_matrix : list (list Z)) (m : RateMatrix)
  : result ScoreResult :=
  s <- score m count_matrix ;;
  Ok {| model_name := name m; model_score := s |}.

(** Modelled from the spec: [rank] of the model scorer (section 4.4),
    which is not among the sources.  Every candidate is scored; the
    results are ordered by descending score, equal scores by name. *)
Definition rank (candidate_models : list RateMatrix)
    (count_matrix : list (list Z)) : result (list ScoreResult) :=
  scored <- mapM (score_result count_matrix) candidate_models ;;
  Ok (sort scored).

End ModelScorer.

End Models.

(** The rational that a literal read from the file denotes; [inf] and
    [nan] are not frequencies or exchangeabilities. *)
Definition literal_value (x : Py.pyfloat) : result Q :=
  match x with
  | Py.finite neg c e =>
      let m := if neg then (- Z.of_N c)%Z else Z.of_N c in
      Ok (if (0 <=? e)%Z then inject_Z (m * 10 ^ e)
          else (m # Pos.pow 10 (Z.to_pos (- e))))
  | _ => Raise MalformedModelError
  end.

Definition Models_tolerance : Q := 1 # 1000000.

(** Modelled from the spec: the class [RateMatrix] that [read_model]
    imports from [modelmatcher/models.py], for the alphabet of 20 amino
    acids. *)
Definition Models_RateMatrix : RateMatrixClass := {|
  RateMatrix := Models.RateMatrix;
  RateMatrix_init := fun model_name => Models.init model_name 20;
  set_r_and_freq := fun rm r_vals freqs =>
    r <- mapM literal_value r_vals ;;
    f <- mapM literal_value freqs ;;
    Models.set_r_and_freq Models_tolerance rm r f
|}.

(* ================================================================== *)
(** ** Sample streams *)

Definition LF : string := String (ascii_of_nat 10) EmptyString.

(** A text stream from its lines, each one ended by a line feed. *)
Definition stream (lines : list string) : list string :=
  map (fun text => String.append text LF) lines.

(** A complete model file: a comment, the 190 exchangeabilities in 19 rows,
    the 20 frequencies, and a closing remark. *)
Definition toy_model : list string :=
  stream
    ["# toy model: all exchangeabilities equal";
     "1";
     "1 1";
     "1 1 1";
     "1 1 1 1";
     "1 1 1 1 1";
     "1 1 1 1 1 1";
     "1 1 1 1 1 1 1";
     "1 1 1 1 1 1 1 1";
     "1 1 1 1 1 1 1 1 1";
     "1 1 1 1 1 1 1 1 1 1";
     "1 1 1 1 1 1 1 1 1 1 1";
     "1 1 1 1 1 1 1 1 1 1 1 1";
     "1 1 1 1 1 1 1 1 1 1 1 1 1";
     "1 1 1 1 1 1 1 1 1 1 1 1 1 1";
     "1 1 1 1 1 1 1 1 1 1 1 1 1 1 1";
     "1 1 1 1 1 1 1 1 1 1 1 1 1 1 1 1";
     "1 1 1 1 1 1 1 1 1 1 1 1 1 1 1 1 1";
     "1 1 1 1 1 1 1 1 1 1 1 1 1 1 1 1 1 1";
     "1 1 1 1 1 1 1 1 1 1 1 1 1 1 1 1 1 1 1";
     EmptyString;
     "0.05 0.05 0.05 0.05 0.05 0.05 0.05 0.05 0.05 0.05 0.05 0.05 0.05 0.05 0.05 0.05 0.05 0.05 0.05 0.05";
     EmptyString;
     "equal rates (Jukes-Cantor like), symbols in the order A R N D ..."]%string.

(** A file whose lower triangle was cut short. *)
Definition truncated_model : list string :=
  stream ["# only three rows"; "1"; "1 1"; "1 1 1"]%string.

(** A file with a stray word before the frequencies. *)
Definition stray_word_model : list string :=
  stream ["1"; "x";
          "1 2 3 4 5 6 7 8 9 10 11 12 13 14 15 16 17 18 19 20"]%string.

(** A file whose comment is followed by twenty words. *)
Definition words_model : list string :=
  stream ["# symbols";
          "A R N D C Q E G H I L K M F P S T W Y V"]%string.

(** A file that starts with the frequencies. *)
Definition frequencies_first : list string :=
  stream ["# no exchangeabilities";
          "1 2 3 4 5 6 7 8 9 10 11 12 13 14 15 16 17 18 19 20";
          "1 2 3"]%string.

(** A file whose comment sign is indented. *)
Definition indented_comment : list string :=
  stream ["1 2"; " # indented"; "3"]%string.

(* ================================================================== *)
(** ** Sample models *)

(** A model of three symbols. *)
Definition three_state : Models.RateMatrix :=
  {| Models.name := "three"; Models.k := 3;
     Models.exchangeabilities := [1; 2; 3];
     Models.frequencies := [1 # 2; 1 # 4; 1 # 4] |}.

(** Two more models of three symbols, with other names. *)
Definition uniform_state : Models.RateMatrix :=
  {| Models.name := "uniform"; Models.k := 3;
     Models.exchangeabilities := [1; 1; 1];
     Models.frequencies := [1 # 3; 1 # 3; 1 # 3] |}.

Definition skewed_state : Models.RateMatrix :=
  {| Models.name := "skewed"; Models.k := 3;
     Models.exchangeabilities := [3; 2; 1];
     Models.frequencies := [1 # 2; 1 # 8; 3 # 8] |}.

(** A linear congruential generator; the variate is its state in
    thousandths. *)
Definition lcg_random (g : N) : Q * N :=
  let g' := ((1103515245 * g + 12345) mod 2147483648)%N in
  (Z.of_N (g' mod 1000) # 1000, g').

(** P(t) in the limit of long branches: every row is the frequency
    vector. *)
Definition stationary_transitions (rm : Models.RateMatrix) (t : Q)
  : list (list Q) :=
  repeat (Models.frequencies rm) (Models.k rm).

(** A score for the examples: the weight of the diagonal of the counts
    under the frequencies of the model; an all-zero matrix is rejected. *)
Definition diagonal_score (m : Models.RateMatrix) (N : list (list Z))
  : result Q :=
  if (Models.total N =? 0)%Z then Raise DegenerateInputError
  else Ok (Models.Qsum
             (map (fun i => inject_Z (nth i (nth i N []) 0%Z)
                            * Models.frequency m i)
                  (seq 0 (Models.k m)))).

Definition diagonal_counts : list (list Z) :=
  [[4; 0; 0]; [0; 0; 0]; [0; 0; 0]]%Z.

(* ================================================================== *)
(** ** [read_model], read off the lines of the stream *)

(** Every character of the text is whitespace. *)
Fixpoint all_space (s : string) : bool :=
  match s with
  | EmptyString => true
  | String c rest => Py.isspace c && all_space rest
  end.

(** The lines before the first one that is not passed over, and, when
    there is one, that line and the lines after it. *)
Fixpoint first_stop (h : list string)
  : list string * option (string * list string) :=
  match h with
  | [] => ([], None)
  | line :: rest =>
      if read_past line then
        let (pre, stop) := first_stop rest in (line :: pre, stop)
      else ([], Some (line, rest))
  end.

(** How the loop ends at a line that is not passed over, with the values
    [r_vals] gathered before it. *)
Definition stop_exit (r_vals : list Py.pyfloat) (line : string) : loop_exit :=
  match line with
  | EmptyString => Raised IndexError
  | _ =>
      match first_bad_token line with
      | Some token => Raised (ValueError token)
      | None => Broke r_vals (float_values line)
      end
  end.

(** The outcome of the loop, told from the lines. *)
Definition loop_by_lines (h : list string) : loop_exit * list string :=
  match first_stop h with
  | (pre, None) => (Exhausted (r_values pre), [])
  | (pre, Some (line, suf)) => (stop_exit (r_values pre) line, suf)
  end.

(** The tokens of the lines that are no comments, in file order. *)
Definition data_tokens (lines : list string) : list string :=
  flat_map tokens (filter (fun l => negb (is_comment l)) lines).

(** A file without frequencies that holds a stray word. *)
Definition stray_word_rows : list string :=
  stream ["1 2"; "x"]%string.

(** The toy model with its exchangeabilities in rows of ten. *)
Definition flowing_rows : list string :=
  stream
    ["1 1 1 1 1 1 1 1 1 1";
     "1 1 1 1 1 1 1 1 1 1";
     "1 1 1 1 1 1 1 1 1 1";
     "1 1 1 1 1 1 1 1 1 1";
     "1 1 1 1 1 1 1 1 1 1";
     "1 1 1 1 1 1 1 1 1 1";
     "1 1 1 1 1 1 1 1 1 1";
     "1 1 1 1 1 1 1 1 1 1";
     "1 1 1 1 1 1 1 1 1 1";
     "1 1 1 1 1 1 1 1 1 1";
     "1 1 1 1 1 1 1 1 1 1";
     "1 1 1 1 1 1 1 1 1 1";
     "1 1 1 1 1 1 1 1 1 1";
     "1 1 1 1 1 1 1 1 1 1";
     "1 1 1 1 1 1 1 1 1 1";
     "1 1 1 1 1 1 1 1 1 1";
     "1 1 1 1 1 1 1 1 1 1";
     "1 1 1 1 1 1 1 1 1 1";
     "1 1 1 1 1 1 1 1 1 1"]%string.

(* ================================================================== *)
(** ** [setup.py] *)

Module Setup.

(** [s.strip(chars)]: the characters of [chars] are removed from both ends
    of [s]. *)
Definition in_chars (chars : string) (c : ascii) : bool :=
  existsb (Ascii.eqb c) (list_ascii_of_string chars).

Fixpoint lstrip (chars s : string) : string :=
  match s with
  | String c rest => if in_chars chars c then lstrip chars rest else s
  | EmptyString => EmptyString
  end.

Definition reverse (s : string) : string :=
  string_of_list_ascii (rev (list_ascii_of_string s)).

Definition strip (chars s : string) : string :=
  reverse (lstrip chars (reverse (lstrip chars s))).

(** What one turn of the loop of [read_version_string] does: it returns,
    or goes on with a value of [versionstring].  Unpacking anything but
    three tokens raises, which the bare [except] turns into [continue]
    with [versionstring] as it was. *)
Inductive version_step : Type :=
| Return (version : string)
| Next (versionstring : option string).

Definition version_body (line : string) (versionstring : option string)
  : version_step :=
  match Py.split line with
  | [identifier; equalsign; v] =>
      if String.eqb identifier "__version__" && String.eqb equalsign "="
      then Return (strip "'" v)
      else Next (Some v)
  | _ => Next versionstring
  end.

(** The loop and the lines after it; [None] is Python's [None], returned
    when the function falls off its end. *)
Fixpoint version_loop (h : list string) (versionstring : option string)
  : option string :=
  match h with
  | [] =>
      match versionstring with
      | None => Some "unknown_version"%string
      | Some _ => None
      end
  | line :: rest =>
      match version_body line versionstring with
      | Return version => Some version
      | Next versionstring' => version_loop rest versionstring'
      end
  end.

Section Files.
(** [open(filename)]: the lines of the file, or the exception raised. *)
Variable open : string -> result (list string).

Definition read_version_string (filename : string)
  : result (option string) :=
  h <- open filename ;; Ok (version_loop h None).

End Files.

(** The line carries the version: its tokens are [__version__], [=] and
    one more. *)
Definition version_of_line (line : string) : option string :=
  match Py.split line with
  | [identifier; equalsign; v] =>
      if String.eqb identifier "__version__" && String.eqb equalsign "="
      then Some v else None
  | _ => None
  end.

Definition three_tokens (line : string) : bool :=
  (List.length (Py.split line) =? 3)%nat.

(** The version of the first line that carries one. *)
Fixpoint first_version (h : list string) : option string :=
  match h with
  | [] => None
  | line :: rest =>
      match version_of_line line with
      | Some v => Some v
      | None => first_version rest
      end
  end.

(** The line of [version.py] for the version [v]. *)
Definition version_line (v : string) : string :=
  String.append "__version__ = '"
    (String.append v (String.append "'" LF)).

Definition no_space (s : string) : bool :=
  forallb (fun c => negb (Py.isspace c)) (list_ascii_of_string s).

(** The text neither starts nor ends with an apostrophe. *)
Definition unquoted (s : string) : bool :=
  match s, reverse s with
  | String c _, String d _ => negb (Ascii.eqb c "'") && negb (Ascii.eqb d "'")
  | _, _ => true
  end.

(** The loop over [README.md]: the state is [at_top] and
    [long_description]; [line[:3]] is the first three characters. *)
Definition is_badge (line : string) : bool :=
  String.eqb (substring 0 3 line) "[![".

Definition readme_step (state : bool * string) (line : string)
  : bool * string :=
  let (at_top, long_description) := state in
  let at_top' := if at_top && is_badge line then at_top else false in
  (at_top', String.append long_description line).

Definition readme_loop (fh : list string) : bool * string :=
  fold_left readme_step fh (true, EmptyString).

Definition long_description (fh : list string) : string :=
  snd (readme_loop fh).

(** A [version.py] and a [README.md]. *)
Definition version_py : list string :=
  stream ["# the version of the package";
          "__all__ = []";
          "__version__ = '1.2.3'";
          "__version__ = '9.9'"]%string.

Definition readme_md : list string :=
  stream ["[![Build](https://example.org/badge.svg)](https://example.org)";
          "# modelmatcher";
          "[![late badge](x)](y)"]%string.

Definition version_files (filename : string) : result (list string) :=
  if String.eqb filename "modelmatcher/version.py" then Ok version_py
  else Raise (IOError "No such file or directory").

End Setup.

(* ================================================================== *)
(** * Properties of [read_model] *)

(** ** One line *)

Lemma mapM_float_first_bad (toks : list string) :
  mapM float_or_raise toks =
  match find (fun t => negb (is_float t)) toks with
  | Some t => Raise (ValueError t)
  | None =>
      Ok (flat_map
            (fun t => match Py.float t with Some v => [v] | None => [] end)
            toks)
  end.
Proof.
  induction toks as [|t toks IH]; simpl; [reflexivity|].
  unfold float_or_raise at 1, is_float at 1.
  destruct (Py.float t) as [v|]; simpl; [|reflexivity].
  rewrite IH.
  destruct (find _ toks); reflexivity.
Qed.

Lemma parseable_no_bad_token (line : string) :
  parseable line = true <-> first_bad_token line = None.
Proof.
  unfold parseable, first_bad_token.
  induction (tokens line) as [|t toks IH]; simpl; [tauto|].
  destruct (is_float t); simpl; [exact IH|].
  split; discriminate.
Qed.

Lemma loop_body_comment (line : string) (r_vals : list Py.pyfloat) :
  is_comment line = true -> loop_body line r_vals = Continue r_vals.
Proof.
  destruct line as [|c rest]; simpl; [discriminate|].
  intros ->. reflexivity.
Qed.

(** What the loop body does with a line that is no comment. *)
Lemma loop_body_data (line : string) (r_vals : list Py.pyfloat) :
  line <> EmptyString -> is_comment line = false ->
  loop_body line r_vals =
  match first_bad_token line with
  | Some t => Throw (ValueError t)
  | None =>
      if (List.length (tokens line) <? 20)%nat
      then Continue (r_vals ++ float_values line)
      else Break (float_values line)
  end.
Proof.
  destruct line as [|c rest]; [congruence|].
  intros _ Hc. simpl in Hc. unfold loop_body. rewrite Hc.
  cbv zeta. rewrite mapM_float_first_bad.
  unfold first_bad_token, float_values, tokens.
  destruct (find _ _); reflexivity.
Qed.

Lemma read_past_cases (line : string) :
  read_past line = true ->
  line <> EmptyString /\
  (is_comment line = true \/
   is_comment line = false /\ parseable line = true /\
   (List.length (tokens line) <? 20)%nat = true).
Proof.
  unfold read_past, is_frequency_line. intros H.
  apply andb_true_iff in H as [H Hp].
  apply andb_true_iff in H as [Hne Hf].
  apply negb_true_iff, String.eqb_neq in Hne.
  split; [exact Hne|].
  destruct (is_comment line); [now left|right].
  cbn [negb andb orb] in Hf, Hp.
  apply negb_true_iff, Nat.leb_gt in Hf.
  repeat split; [exact Hp|now apply Nat.ltb_lt].
Qed.

Lemma loop_body_read_past (line : string) (r_vals : list Py.pyfloat) :
  read_past line = true ->
  loop_body line r_vals =
  Continue (r_vals ++ if is_comment line then [] else float_values line).
Proof.
  intros H. apply read_past_cases in H as [Hne [Hc|(Hc & Hp & Hn)]].
  - rewrite Hc, app_nil_r. now apply loop_body_comment.
  - rewrite (loop_body_data _ Hne Hc), Hc.
    apply parseable_no_bad_token in Hp. rewrite Hp, Hn. reflexivity.
Qed.

(** Only lines that are passed over let the loop go on. *)
Lemma loop_body_continue_read_past
    (line : string) (r_vals r_vals' : list Py.pyfloat) :
  loop_body line r_vals = Continue r_vals' -> read_past line = true.
Proof.
  intros H. unfold read_past, is_frequency_line.
  destruct line as [|c rest]; [discriminate H|].
  cbn [String.eqb negb andb].
  destruct (is_comment (String c rest)) eqn:Hc; [reflexivity|].
  rewrite loop_body_data in H by (assumption || discriminate).
  cbn [negb andb orb].
  destruct (first_bad_token (String c rest)) eqn:Hb; [discriminate H|].
  apply parseable_no_bad_token in Hb. rewrite Hb.
  destruct (Nat.ltb_spec (List.length (tokens (String c rest))) 20)
    as [Hn|Hn]; [|discriminate H].
  apply Nat.leb_gt in Hn. now rewrite Hn.
Qed.

Lemma read_past_not_frequency (line : string) :
  read_past line = true -> is_frequency_line line = false.
Proof.
  unfold read_past. intros H.
  apply andb_true_iff in H as [H _].
  apply andb_true_iff in H as [_ H].
  now apply negb_true_iff in H.
Qed.

(** ** The loop *)

Lemma r_values_cons (line : string) (lines : list string) :
  r_values (line :: lines) =
  (if is_comment line then [] else float_values line) ++ r_values lines.
Proof.
  unfold r_values. simpl. destruct (is_comment line); reflexivity.
Qed.

(** The loop runs through a prefix of lines that are all passed over, and
    gathers their values. *)
Lemma for_loop_prefix (pre rest : list string) (r_vals : list Py.pyfloat) :
  forallb read_past pre = true ->
  for_loop (pre ++ rest) r_vals = for_loop rest (r_vals ++ r_values pre).
Proof.
  revert r_vals.
  induction pre as [|line pre IH]; intros r_vals H; simpl.
  - unfold r_values. simpl. now rewrite app_nil_r.
  - simpl in H. apply andb_true_iff in H as [Hl Hpre].
    rewrite (loop_body_read_past _ r_vals Hl), (IH _ Hpre).
    rewrite r_values_cons, app_assoc. reflexivity.
Qed.

(** The loop reaches the end of the stream exactly when every line is
    passed over. *)
Lemma for_loop_exhausted_iff (h : list string) (r_vals : list Py.pyfloat) :
  (exists r, for_loop h r_vals = (Exhausted r, [])) <->
  forallb read_past h = true.
Proof.
  split.
  - revert r_vals. induction h as [|line h IH]; intros r_vals [r Hr].
    + reflexivity.
    + simpl in Hr |- *.
      destruct (loop_body line r_vals) as [r'| |] eqn:Hb;
        [|discriminate Hr|discriminate Hr].
      rewrite (loop_body_continue_read_past _ _ Hb). simpl.
      eapply IH. eauto.
  - intros H. exists (r_vals ++ r_values h).
    rewrite <- (app_nil_r h) at 1.
    now rewrite for_loop_prefix.
Qed.

(** Taking a comment line out of the stream does not change how the loop
    ends. *)
Lemma for_loop_without_comment
    (pre suf : list string) (c : string) (r_vals : list Py.pyfloat) :
  is_comment c = true ->
  fst (for_loop (pre ++ c :: suf) r_vals) = fst (for_loop (pre ++ suf) r_vals).
Proof.
  intros Hc. revert r_vals.
  induction pre as [|line pre IH]; intros r_vals; simpl.
  - now rewrite (loop_body_comment _ r_vals Hc).
  - destruct (loop_body line r_vals); [apply IH|reflexivity|reflexivity].
Qed.

Section ReadModelFacts.
Context {RM : RateMatrixClass}.

Lemma read_model_finish (h : list string) (model_name : string) :
  read_model h model_name =
  (finish model_name (fst (for_loop h [])), snd (for_loop h [])).
Proof.
  unfold read_model. destruct (for_loop h []) as [e rest]. reflexivity.
Qed.

(** C1.  For a stream without an empty line, in which the tokens of every
    non-comment line are floats: when the stream holds no frequency line,
    the loop reaches the end of the stream and [read_model] raises
    [IOError], the specification's [FormatError]. *)
Theorem read_model_exhausted (h : list string) (model_name : string) :
  forallb (fun line => negb (is_frequency_line line)) h = true ->
  Forall (fun line => line <> EmptyString) h ->
  forallb (fun line => is_comment line || parseable line) h = true ->
  (exists r_vals, for_loop h [] = (Exhausted r_vals, [])) /\
  read_model h model_name = (Raise (IOError not_PAML), []).
Proof.
  intros Hf Hne Hp.
  assert (H : forallb read_past h = true).
  { apply forallb_forall. intros line Hin. unfold read_past.
    rewrite (proj1 (forallb_forall _ _) Hf line Hin).
    rewrite (proj1 (forallb_forall _ _) Hp line Hin).
    pose proof (proj1 (Forall_forall _ _) Hne line Hin) as Hl.
    apply String.eqb_neq in Hl. now rewrite Hl. }
  pose proof (proj2 (for_loop_exhausted_iff h []) H) as [r Hr].
  split; [now exists r|].
  rewrite read_model_finish, Hr. reflexivity.
Qed.

(** C2.  When the lines before the first frequency line are
    all passed over and the tokens of the frequency line are floats,
    [read_model] hands to [set_r_and_freq] the values of the earlier
    non-comment lines, in file order, and the values of the frequency
    line, and returns what it answers; the lines after the frequency
    line stay unread in the stream. *)
Theorem read_model_frequency_line
    (pre suf : list string) (fl model_name : string) :
  forallb read_past pre = true ->
  fl <> EmptyString ->
  is_frequency_line fl = true ->
  parseable fl = true ->
  read_model (pre ++ fl :: suf) model_name =
  (set_r_and_freq (RateMatrix_init model_name)
                  (r_values pre) (float_values fl),
   suf).
Proof.
  intros Hpre Hne Hfl Hp.
  unfold is_frequency_line in Hfl.
  apply andb_true_iff in Hfl as [Hc Hn].
  apply negb_true_iff in Hc.
  rewrite read_model_finish, (for_loop_prefix _ _ _ Hpre).
  cbn [for_loop app].
  rewrite (loop_body_data _ Hne Hc).
  apply parseable_no_bad_token in Hp. rewrite Hp.
  apply Nat.leb_le in Hn.
  destruct (Nat.ltb_spec (List.length (tokens fl)) 20) as [Hlt|_]; [lia|].
  reflexivity.
Qed.

(** C8.  A line that starts with [#] is skipped: the loop body leaves
    [r_vals] as it is and does not break, whatever the line holds, and
    the outcome of [read_model] is the same with or without the line. *)
Theorem read_model_skips_comment
    (pre suf : list string) (c model_name : string) :
  is_comment c = true ->
  (forall r_vals, loop_body c r_vals = Continue r_vals) /\
  fst (read_model (pre ++ c :: suf) model_name) =
  fst (read_model (pre ++ suf) model_name).
Proof.
  intros Hc. split.
  - intros r_vals. now apply loop_body_comment.
  - rewrite !read_model_finish. cbn [fst].
    now rewrite for_loop_without_comment.
Qed.

(** C9.  When the first non-comment line has at least 20
    tokens and they are all floats, [read_model] raises nothing itself:
    the loop breaks with an empty [r_vals], and [set_r_and_freq] gets the
    empty list and the values of that line. *)
Theorem read_model_frequencies_first
    (comments suf : list string) (fl model_name : string) :
  forallb is_comment comments = true ->
  fl <> EmptyString ->
  is_frequency_line fl = true ->
  parseable fl = true ->
  for_loop (comments ++ fl :: suf) [] = (Broke [] (float_values fl), suf) /\
  read_model (comments ++ fl :: suf) model_name =
  (set_r_and_freq (RateMatrix_init model_name) [] (float_values fl), suf).
Proof.
  intros Hcs Hne Hfl Hp.
  assert (Hloop : for_loop (comments ++ fl :: suf) []
                  = (Broke [] (float_values fl), suf)).
  { clear model_name. induction comments as [|c comments IH]; simpl.
    - unfold is_frequency_line in Hfl.
      apply andb_true_iff in Hfl as [Hc Hn].
      apply negb_true_iff in Hc.
      rewrite (loop_body_data _ Hne Hc).
      apply parseable_no_bad_token in Hp. rewrite Hp.
      apply Nat.leb_le in Hn.
      destruct (Nat.ltb_spec (List.length (tokens fl)) 20) as [Hlt|_];
        [lia|reflexivity].
    - simpl in Hcs. apply andb_true_iff in Hcs as [Hc Hcs].
      rewrite (loop_body_comment _ _ Hc). now apply IH. }
  split; [exact Hloop|].
  rewrite read_model_finish, Hloop. reflexivity.
Qed.

(** C10.  The tokens of a line are converted before they are
    counted: a non-comment line that the loop reaches (every line before
    it is passed over) and that holds a token [float] rejects makes
    [read_model] raise [ValueError] for the first such token, however
    many tokens the line has. *)
Theorem read_model_bad_token
    (pre suf : list string) (line model_name : string) :
  forallb read_past pre = true ->
  line <> EmptyString ->
  is_comment line = false ->
  parseable line = false ->
  exists token,
    In token (tokens line) /\ Py.float token = None /\
    for_loop (pre ++ line :: suf) [] = (Raised (ValueError token), suf) /\
    read_model (pre ++ line :: suf) model_name
    = (Raise (ValueError token), suf).
Proof.
  intros Hpre Hne Hc Hp.
  destruct (first_bad_token line) as [token|] eqn:Hb.
  - exists token.
    pose proof Hb as Hfind. unfold first_bad_token in Hfind.
    apply find_some in Hfind as [Hin Hbad].
    apply negb_true_iff in Hbad. unfold is_float in Hbad.
    assert (Hloop : for_loop (pre ++ line :: suf) []
                    = (Raised (ValueError token), suf)).
    { rewrite (for_loop_prefix _ _ _ Hpre). cbn [for_loop].
      now rewrite (loop_body_data _ Hne Hc), Hb. }
    repeat split.
    + exact Hin.
    + destruct (Py.float token); [discriminate Hbad|reflexivity].
    + exact Hloop.
    + rewrite read_model_finish, Hloop. reflexivity.
  - apply parseable_no_bad_token in Hb. congruence.
Qed.

End ReadModelFacts.

(** The stream [truncated_model] runs out without a frequency line. *)
Lemma read_model_exhausted_witness :
  forallb (fun line => negb (is_frequency_line line)) truncated_model = true /\
  Forall (fun line => line <> EmptyString) truncated_model /\
  forallb (fun line => is_comment line || parseable line) truncated_model
  = true /\
  (exists r_vals, for_loop truncated_model [] = (Exhausted r_vals, [])) /\
  @read_model Models_RateMatrix truncated_model "toy"
  = (Raise (IOError not_PAML), []).
Proof.
  assert (H1 : forallb (fun line => negb (is_frequency_line line))
                       truncated_model = true) by reflexivity.
  assert (H2 : Forall (fun line => line <> EmptyString) truncated_model)
    by (repeat constructor; discriminate).
  assert (H3 : forallb (fun line => is_comment line || parseable line)
                       truncated_model = true) by reflexivity.
  refine (conj H1 (conj H2 (conj H3 _))).
  exact (@read_model_exhausted Models_RateMatrix _ "toy"%string H1 H2 H3).
Defined.

(** The end of the stream alone is not enough for C1: [stray_word_rows]
    has no frequency line and is read to its last line, and [read_model]
    raises [ValueError] there instead of [IOError]. *)
Lemma read_model_exhausted_counterexample :
  forallb (fun line => negb (is_frequency_line line)) stray_word_rows = true /\
  @read_model Models_RateMatrix stray_word_rows "toy"
  = (Raise (ValueError "x"), []).
Proof. split; reflexivity. Qed.

(** A frequency line alone is not enough for C2: [stray_word_model] has
    one, and [read_model] raises [ValueError] at the second line instead of
    returning a rate matrix. *)
Lemma read_model_frequency_line_counterexample :
  existsb is_frequency_line stray_word_model = true /\
  @read_model Models_RateMatrix stray_word_model "toy"
  = (Raise (ValueError "x"),
     stream ["1 2 3 4 5 6 7 8 9 10 11 12 13 14 15 16 17 18 19 20"%string]).
Proof. split; reflexivity. Qed.

Lemma read_model_frequency_line_witness :
  let pre := firstn 21 toy_model in
  let fl := nth 21 toy_model EmptyString in
  let suf := skipn 22 toy_model in
  forallb read_past pre = true /\
  fl <> EmptyString /\ is_frequency_line fl = true /\ parseable fl = true /\
  @read_model Models_RateMatrix (pre ++ fl :: suf) "toy"
  = (@set_r_and_freq Models_RateMatrix
       (@RateMatrix_init Models_RateMatrix "toy")
       (r_values pre) (float_values fl),
     suf).
Proof.
  cbv zeta.
  assert (H1 : forallb read_past (firstn 21 toy_model) = true)
    by reflexivity.
  assert (H2 : nth 21 toy_model EmptyString <> EmptyString)
    by discriminate.
  assert (H3 : is_frequency_line (nth 21 toy_model EmptyString) = true)
    by reflexivity.
  assert (H4 : parseable (nth 21 toy_model EmptyString) = true)
    by reflexivity.
  refine (conj H1 (conj H2 (conj H3 (conj H4 _)))).
  exact (@read_model_frequency_line Models_RateMatrix _ _ _ _ H1 H2 H3 H4).
Defined.

Lemma read_model_skips_comment_witness :
  let c := String.append "# 1 2 3 4 5 6 7 8 9 10 11 12 13 14 15 16 17 18 19 20" LF in
  is_comment c = true /\
  (forall r_vals, loop_body c r_vals = Continue r_vals) /\
  fst (@read_model Models_RateMatrix (firstn 3 toy_model ++ c :: skipn 3 toy_model) "toy")
  = fst (@read_model Models_RateMatrix (firstn 3 toy_model ++ skipn 3 toy_model) "toy").
Proof.
  cbv zeta. split; [reflexivity|].
  apply (@read_model_skips_comment Models_RateMatrix). reflexivity.
Defined.

(** Twenty tokens alone are not enough for C9: the first non-comment line
    of [words_model] has 20 tokens, and [read_model] itself raises
    [ValueError] on it. *)
Lemma read_model_frequencies_first_counterexample :
  is_comment (nth 0 words_model EmptyString) = true /\
  is_frequency_line (nth 1 words_model EmptyString) = true /\
  for_loop words_model [] = (Raised (ValueError "A"), []) /\
  @read_model Models_RateMatrix words_model "toy"
  = (Raise (ValueError "A"), []).
Proof. repeat split; reflexivity. Qed.

Lemma read_model_frequencies_first_witness :
  let fl := nth 1 frequencies_first EmptyString in
  forallb is_comment (firstn 1 frequencies_first) = true /\
  fl <> EmptyString /\ is_frequency_line fl = true /\ parseable fl = true /\
  for_loop (firstn 1 frequencies_first ++ fl :: skipn 2 frequencies_first) []
  = (Broke [] (float_values fl), skipn 2 frequencies_first) /\
  @read_model Models_RateMatrix
    (firstn 1 frequencies_first ++ fl :: skipn 2 frequencies_first) "toy"
  = (@set_r_and_freq Models_RateMatrix
       (@RateMatrix_init Models_RateMatrix "toy") [] (float_values fl),
     skipn 2 frequencies_first).
Proof.
  cbv zeta.
  assert (H1 : forallb is_comment (firstn 1 frequencies_first) = true)
    by reflexivity.
  assert (H2 : nth 1 frequencies_first EmptyString <> EmptyString)
    by discriminate.
  assert (H3 : is_frequency_line (nth 1 frequencies_first EmptyString) = true)
    by reflexivity.
  assert (H4 : parseable (nth 1 frequencies_first EmptyString) = true)
    by reflexivity.
  refine (conj H1 (conj H2 (conj H3 (conj H4 _)))).
  exact (@read_model_frequencies_first Models_RateMatrix _ _ _ _ H1 H2 H3 H4).
Defined.

(** A line that is not reached raises nothing (C10): the last line of
    [toy_model] is no comment and holds words that are no floats, and
    [read_model] returns a rate matrix; the line comes after the frequency
    line and is never read. *)
Lemma read_model_bad_token_counterexample :
  let line := nth 23 toy_model EmptyString in
  In line toy_model /\ is_comment line = false /\ parseable line = false /\
  exists q,
    @read_model Models_RateMatrix toy_model "toy" = (Ok q, skipn 22 toy_model).
Proof.
  cbv zeta. repeat split.
  - do 23 right. left. reflexivity.
  - eexists. vm_compute. reflexivity.
Qed.

Lemma read_model_bad_token_witness :
  let line := nth 1 indented_comment EmptyString in
  forallb read_past (firstn 1 indented_comment) = true /\
  line <> EmptyString /\ is_comment line = false /\ parseable line = false /\
  exists token,
    In token (tokens line) /\ Py.float token = None /\
    for_loop (firstn 1 indented_comment ++ line :: skipn 2 indented_comment) []
    = (Raised (ValueError token), skipn 2 indented_comment) /\
    @read_model Models_RateMatrix
      (firstn 1 indented_comment ++ line :: skipn 2 indented_comment) "toy"
    = (Raise (ValueError token), skipn 2 indented_comment).
Proof.
  cbv zeta.
  assert (H1 : forallb read_past (firstn 1 indented_comment) = true)
    by reflexivity.
  assert (H2 : nth 1 indented_comment EmptyString <> EmptyString)
    by discriminate.
  assert (H3 : is_comment (nth 1 indented_comment EmptyString) = false)
    by reflexivity.
  assert (H4 : parseable (nth 1 indented_comment EmptyString) = false)
    by reflexivity.
  refine (conj H1 (conj H2 (conj H3 (conj H4 _)))).
  exact (@read_model_bad_token Models_RateMatrix _ _ _ _ H1 H2 H3 H4).
Defined.

(* ================================================================== *)
(** * Properties of the rate-matrix core *)

Module ModelsFacts.
Import Models.
Local Open Scope Q_scope.

Lemma is_negative_spec (x : Q) : is_negative x = true <-> x < 0.
Proof.
  unfold is_negative. rewrite negb_true_iff.
  split; intros H.
  - apply Qnot_le_lt. intros Hle.
    apply Qle_bool_iff in Hle. congruence.
  - destruct (Qle_bool 0 x) eqn:E; [|reflexivity].
    apply Qle_bool_iff in E. exfalso. now apply (Qlt_not_le x 0).
Qed.

Lemma is_zero_spec (x : Q) : is_zero x = true <-> x == 0.
Proof. unfold is_zero. apply Qeq_bool_iff. Qed.

Lemma exists_negative (freqs : list Q) :
  existsb is_negative freqs = true <-> exists f, In f freqs /\ f < 0.
Proof.
  rewrite existsb_exists.
  split; intros [f [Hin Hf]]; exists f; split; trivial;
    now apply is_negative_spec.
Qed.

Lemma all_zero (freqs : list Q) :
  forallb is_zero freqs = true <-> Forall (fun f => f == 0) freqs.
Proof.
  rewrite forallb_forall, Forall_forall.
  split; intros H f Hin; apply is_zero_spec; auto.
Qed.

(** What [set_r_and_freq] stores when it accepts its arguments. *)
Lemma set_r_and_freq_accepts
    (tolerance : Q) (rm rm' : RateMatrix) (r_vals freqs : list Q) :
  set_r_and_freq tolerance rm r_vals freqs = Ok rm' ->
  name rm' = name rm /\ k rm' = k rm /\
  exchangeabilities rm' = r_vals /\
  List.length r_vals = (k rm * (k rm - 1) / 2)%nat /\
  List.length (frequencies rm') = k rm /\
  (0 < k rm)%nat.
Proof.
  unfold set_r_and_freq.
  destruct (Nat.eqb_spec (List.length r_vals) (k rm * (k rm - 1) / 2))
    as [Hr|]; [|discriminate].
  destruct (Nat.eqb_spec (List.length freqs) (k rm)) as [Hf|];
    [|discriminate].
  cbn [negb].
  destruct (existsb is_negative freqs); [discriminate|].
  destruct (forallb is_zero freqs) eqn:Hz; [discriminate|].
  intros H. injection H as <-. cbn.
  repeat split; trivial.
  - destruct (Qle_bool _ _); [exact Hf|now rewrite length_map].
  - destruct freqs; [discriminate Hz|]. simpl in Hf. lia.
Qed.

Lemma set_r_and_freq_cases
    (tolerance : Q) (rm : RateMatrix) (r_vals freqs : list Q) :
  malformed rm r_vals freqs /\
  set_r_and_freq tolerance rm r_vals freqs = Raise MalformedModelError
  \/
  ~ malformed rm r_vals freqs /\
  exists rm', set_r_and_freq tolerance rm r_vals freqs = Ok rm'.
Proof.
  unfold set_r_and_freq, malformed.
  destruct (Nat.eqb_spec (List.length r_vals) (k rm * (k rm - 1) / 2))
    as [Hr|Hr]; cbn [negb]; [|left; auto].
  destruct (Nat.eqb_spec (List.length freqs) (k rm)) as [Hf|Hf];
    cbn [negb]; [|left; auto].
  destruct (existsb is_negative freqs) eqn:Hn.
  { apply exists_negative in Hn. left; auto. }
  destruct (forallb is_zero freqs) eqn:Hz.
  { apply all_zero in Hz. left; auto 6. }
  right. split; [|eexists; reflexivity].
  intros [H|[H|[H|H]]]; try contradiction.
  - apply exists_negative in H. congruence.
  - apply all_zero in H. congruence.
Qed.

(** The scenario of the specification: 189 exchangeabilities for the
    alphabet of 20 symbols are rejected. *)
Lemma set_r_and_freq_189
    (tolerance : Q) (model_name : string) (r_vals freqs : list Q) :
  List.length r_vals = 189%nat ->
  set_r_and_freq tolerance (init model_name 20) r_vals freqs
  = Raise MalformedModelError.
Proof.
  intros H.
  destruct (set_r_and_freq_cases tolerance (init model_name 20)
              r_vals freqs) as [[_ E]|[Hm _]]; [exact E|].
  exfalso. apply Hm. left. rewrite H. cbn. discriminate.
Qed.

(** C4.  [set_r_and_freq] raises [MalformedModelError] exactly when the
    number of exchangeabilities is not k(k-1)/2, the number of
    frequencies is not k, a frequency is negative, or all frequencies are
    zero; in every other case it returns the rate matrix with the
    parameters set. *)
Theorem set_r_and_freq_malformed
    (tolerance : Q) (rm : RateMatrix) (r_vals freqs : list Q) :
  (set_r_and_freq tolerance rm r_vals freqs = Raise MalformedModelError
   <-> malformed rm r_vals freqs) /\
  (~ malformed rm r_vals freqs ->
   exists rm',
     set_r_and_freq tolerance rm r_vals freqs = Ok rm' /\
     k rm' = k rm /\ exchangeabilities rm' = r_vals /\
     List.length (frequencies rm') = k rm).
Proof.
  destruct (set_r_and_freq_cases tolerance rm r_vals freqs)
    as [[Hm E]|[Hm [rm' E]]].
  - split; [tauto|]. intros H. contradiction.
  - split; [split; [rewrite E; discriminate|contradiction]|].
    intros _. exists rm'.
    destruct (set_r_and_freq_accepts _ _ _ _ E) as (_ & ? & ? & _ & ? & _).
    auto.
Qed.

(** ** The rate matrix Q *)

Lemma build_Q_row (rm : RateMatrix) (i : nat) :
  (i < k rm)%nat -> nth i (build_Q rm) [] = row_of_Q rm i.
Proof.
  intros Hi. unfold build_Q.
  rewrite (nth_indep _ [] (row_of_Q rm 0)) by now rewrite length_map, length_seq.
  rewrite (map_nth (row_of_Q rm) (seq 0 (k rm)) 0%nat i).
  now rewrite seq_nth.
Qed.

Lemma build_Q_entry (rm : RateMatrix) (i j : nat) :
  (i < k rm)%nat -> (j < k rm)%nat ->
  entry (build_Q rm) i j =
  if (i =? j)%nat
  then - Qsum (map (off_diagonal rm i) (others (k rm) i))
  else off_diagonal rm i j.
Proof.
  intros Hi Hj. unfold entry. rewrite (build_Q_row _ Hi). unfold row_of_Q.
  set (f := fun j0 : nat => if (i =? j0)%nat then _ else _).
  rewrite (nth_indep _ 0 (f 0%nat)) by now rewrite length_map, length_seq.
  rewrite (map_nth f (seq 0 (k rm)) 0%nat j).
  now rewrite seq_nth.
Qed.

(** The sum over a stretch of symbols of a row whose entry at [i] is [d]
    and whose other entries are given by [a]. *)
Lemma Qsum_row (a : nat -> Q) (d : Q) (i start len : nat) :
  Qsum (map (fun j => if (i =? j)%nat then d else a j) (seq start len)) ==
  (if (start <=? i)%nat && (i <? start + len)%nat then d else 0)
  + Qsum (map a (filter (fun j => negb (i =? j)%nat) (seq start len))).
Proof.
  revert start. induction len as [|len IH]; intros start.
  - cbn [seq map filter Qsum fold_right].
    destruct (Nat.leb_spec start i), (Nat.ltb_spec i (start + 0));
      cbn [andb]; try ring; lia.
  - cbn [seq map filter Qsum fold_right].
    change (fold_right Qplus 0) with Qsum.
    rewrite (IH (S start)).
    destruct (Nat.eqb_spec i start) as [->|Hne]; cbn [negb].
    + destruct (Nat.leb_spec (S start) start); [lia|].
      destruct (Nat.leb_spec start start); [|lia].
      destruct (Nat.ltb_spec start (start + S len)); [|lia].
      cbn [andb]. ring.
    + cbn [map Qsum fold_right]. change (fold_right Qplus 0) with Qsum.
      destruct (Nat.leb_spec start i), (Nat.leb_spec (S start) i),
        (Nat.ltb_spec i (start + S len)), (Nat.ltb_spec i (S start + len));
        cbn [andb]; try ring; lia.
Qed.

Lemma row_of_Q_sum (rm : RateMatrix) (i : nat) :
  (i < k rm)%nat -> Qsum (row_of_Q rm i) == 0.
Proof.
  intros Hi. unfold row_of_Q. rewrite Qsum_row.
  replace ((0 <=? i)%nat && (i <? 0 + k rm)%nat) with true.
  - unfold others. ring.
  - symmetry. apply andb_true_iff. split.
    + now apply Nat.leb_le, Nat.le_0_l.
    + now apply Nat.ltb_lt.
Qed.

(** C5.  For a rate matrix whose parameters were accepted, the entry of Q
    at (i, j), i and j different, is the exchangeability of i and j times
    the frequency of j; the diagonal entry is minus the sum of the other
    entries of its row, and every row sums to zero. *)
Theorem build_Q_rows_sum_to_zero
    (tolerance : Q) (rm : RateMatrix) (i : nat) :
  valid tolerance rm ->
  (i < k rm)%nat ->
  (forall j, (j < k rm)%nat -> i <> j ->
     entry (build_Q rm) i j = exchangeability rm i j * frequency rm j) /\
  entry (build_Q rm) i i
  = - Qsum (map (entry (build_Q rm) i) (others (k rm) i)) /\
  Qsum (nth i (build_Q rm) []) == 0.
Proof.
  intros _ Hi. repeat split.
  - intros j Hj Hij. rewrite (build_Q_entry _ Hi Hj).
    destruct (Nat.eqb_spec i j); [contradiction|reflexivity].
  - rewrite (build_Q_entry _ Hi Hi), Nat.eqb_refl.
    f_equal. f_equal. apply map_ext_in.
    intros j Hj. unfold others in Hj.
    apply filter_In in Hj as [Hj Hne].
    apply in_seq in Hj. apply negb_true_iff in Hne.
    rewrite build_Q_entry by lia. now rewrite Hne.
  - rewrite (build_Q_row _ Hi). now apply row_of_Q_sum.
Qed.

(** ** Count matrices and the sampler *)

Lemma update_length {A : Type} (n : nat) (f : A -> A) (l : list A) :
  List.length (update n f l) = List.length l.
Proof.
  revert n. induction l as [|x l IH]; intros [|n]; simpl; auto.
Qed.

Lemma update_Forall {A : Type} (P : A -> Prop) (n : nat) (f : A -> A)
    (l : list A) :
  (forall x, P x -> P (f x)) -> Forall P l -> Forall P (update n f l).
Proof.
  intros Hf. revert n.
  induction l as [|x l IH]; intros [|n] H; simpl; trivial;
    inversion H; subst; constructor; auto.
Qed.

Lemma Zsum_update_succ (b : nat) (row : list Z) :
  (b < List.length row)%nat ->
  Zsum (update b Z.succ row) = (Zsum row + 1)%Z.
Proof.
  revert b. induction row as [|c row IH]; intros [|b] H; simpl in *;
    try lia.
  rewrite IH; lia.
Qed.

Lemma total_tally (N : list (list Z)) (a b : nat) :
  (a < List.length N)%nat ->
  Forall (fun row => (b < List.length row)%nat) N ->
  total (tally N a b) = (total N + 1)%Z.
Proof.
  unfold total, tally. revert a.
  induction N as [|row N IH]; intros [|a] Ha Hb; simpl in *; try lia;
    inversion Hb; subst.
  - rewrite Zsum_update_succ; [lia|assumption].
  - rewrite IH; [lia|lia|assumption].
Qed.

Lemma zeros_count_matrix (size : nat) :
  is_count_matrix size (zeros size) /\ total (zeros size) = 0%Z.
Proof.
  unfold is_count_matrix, zeros, total.
  assert (Hrow : forall m, Zsum (repeat 0%Z m) = 0%Z).
  { induction m; simpl; lia. }
  repeat split.
  - apply repeat_length.
  - apply Forall_forall. intros row Hrow'.
    apply repeat_spec in Hrow'. subst row. split.
    + apply repeat_length.
    + apply Forall_forall. intros c Hc. apply repeat_spec in Hc. lia.
  - generalize size at 2. intros m.
    induction m; simpl; [reflexivity|]. rewrite Hrow. lia.
Qed.

Lemma tally_count_matrix (size : nat) (N : list (list Z)) (a b : nat) :
  is_count_matrix size N -> (a < size)%nat -> (b < size)%nat ->
  is_count_matrix size (tally N a b) /\
  total (tally N a b) = (total N + 1)%Z.
Proof.
  intros [Hlen Hrows] Ha Hb. split; [split|].
  - unfold tally. now rewrite update_length.
  - unfold tally. apply update_Forall; [|exact Hrows].
    intros row [Hl Hpos]. split.
    + now rewrite update_length.
    + apply update_Forall; [intros; lia|exact Hpos].
  - apply total_tally; [lia|].
    eapply Forall_impl; [|exact Hrows].
    intros row [Hl _]. lia.
Qed.

Lemma choose_from_lt (weights : list Q) (x : Q) :
  weights <> [] -> (choose_from weights x < List.length weights)%nat.
Proof.
  revert x. induction weights as [|w rest IH]; intros x H; [congruence|].
  destruct rest as [|w' rest]; [simpl; lia|].
  cbn [choose_from].
  destruct (Qle_bool w x); [|simpl; lia].
  assert (w' :: rest <> []) by discriminate.
  specialize (IH (x - w) H0). simpl in *. lia.
Qed.

Lemma choose_lt (weights : list Q) (u : Q) :
  (0 < List.length weights)%nat ->
  (choose weights u < List.length weights)%nat.
Proof.
  intros H. apply choose_from_lt. destruct weights; simpl in *; [lia|].
  discriminate.
Qed.

Section SamplerFacts.
Variable G : Type.
Variable random : G -> Q * G.
Variable transition_matrix : RateMatrix -> Q -> list (list Q).

Lemma draw_site_in_range
    (rm : RateMatrix) (branch_lengths : list Q) (g : G) :
  (0 < k rm)%nat -> List.length (frequencies rm) = k rm ->
  branch_lengths <> [] ->
  square_transitions transition_matrix rm branch_lengths ->
  (fst (fst (draw_site random transition_matrix rm branch_lengths g))
   < k rm)%nat /\
  (snd (fst (draw_site random transition_matrix rm branch_lengths g))
   < k rm)%nat.
Proof.
  intros Hk Hf Hbl Hsq. unfold draw_site.
  destruct (random g) as [u1 g1].
  destruct (random g1) as [u2 g2].
  destruct (random g2) as [u3 g3].
  cbn [fst snd].
  assert (Ha : (choose (frequencies rm) u1 < k rm)%nat).
  { rewrite <- Hf. apply choose_lt. lia. }
  split; [exact Ha|].
  set (t := nth _ branch_lengths 0).
  assert (Ht : In t branch_lengths).
  { apply nth_In.
    assert (Hl : (0 < List.length branch_lengths)%nat)
      by (destruct branch_lengths; simpl; [congruence|lia]).
    replace (List.length branch_lengths)
      with (List.length (map (fun _ : Q => 1) branch_lengths))
      by apply length_map.
    apply choose_lt. now rewrite length_map. }
  destruct (Hsq t Ht) as [Hrows Hcols].
  set (row := nth _ (transition_matrix rm t) []).
  assert (Hrow : List.length row = k rm).
  { assert (Hin : In row (transition_matrix rm t))
      by (apply nth_In; lia).
    exact (proj1 (Forall_forall _ _) Hcols row Hin). }
  rewrite <- Hrow. apply choose_lt. lia.
Qed.

Lemma sample_sites_total
    (rm : RateMatrix) (branch_lengths : list Q) (n : nat) :
  (0 < k rm)%nat -> List.length (frequencies rm) = k rm ->
  branch_lengths <> [] ->
  square_transitions transition_matrix rm branch_lengths ->
  forall (N : list (list Z)) (g : G),
    is_count_matrix (k rm) N ->
    is_count_matrix (k rm)
      (fst (sample_sites random transition_matrix rm n branch_lengths N g))
    /\
    total (fst (sample_sites random transition_matrix rm n branch_lengths N g))
    = (total N + Z.of_nat n)%Z.
Proof.
  intros Hk Hf Hbl Hsq.
  induction n as [|n IH]; intros N g HN.
  - simpl. split; [exact HN|lia].
  - cbn [sample_sites].
    pose proof (draw_site_in_range g Hk Hf Hbl Hsq) as [Ha Hb].
    destruct (draw_site random transition_matrix rm branch_lengths g)
      as [[a b] g'].
    cbn [fst snd] in Ha, Hb.
    destruct (tally_count_matrix HN Ha Hb) as [HN' Ht].
    destruct (IH (tally N a b) g' HN') as [H1 H2].
    split; [exact H1|]. rewrite H2, Ht. lia.
Qed.

(** C3.  For a rate matrix whose parameters were accepted, a number of
    sites [n] and a non-empty sequence of branch lengths at which P(t) is
    k x k, [sample_count_matrix] returns a k x k matrix of non-negative
    integers whose entries sum to [n]. *)
Theorem sample_count_matrix_total
    (tolerance : Q) (rm : RateMatrix) (n : nat) (branch_lengths : list Q)
    (g : G) :
  valid tolerance rm ->
  branch_lengths <> [] ->
  square_transitions transition_matrix rm branch_lengths ->
  is_count_matrix (k rm)
    (fst (sample_count_matrix random transition_matrix rm n branch_lengths g))
  /\
  total
    (fst (sample_count_matrix random transition_matrix rm n branch_lengths g))
  = Z.of_nat n.
Proof.
  intros (rm0 & r_vals & freqs & Hv) Hbl Hsq.
  destruct (set_r_and_freq_accepts _ _ _ _ Hv) as (_ & Hk & _ & _ & Hf & Hpos).
  rewrite <- Hk in Hf, Hpos.
  destruct (zeros_count_matrix (k rm)) as [Hz Hz0].
  unfold sample_count_matrix.
  destruct (sample_sites_total n Hpos Hf Hbl Hsq g Hz) as [H1 H2].
  split; [exact H1|]. rewrite H2, Hz0. lia.
Qed.

End SamplerFacts.

(** ** Ranking *)

Lemma leb_trans (s1 s2 s3 : string) :
  String.leb s1 s2 = true -> String.leb s2 s3 = true ->
  String.leb s1 s3 = true.
Proof.
  unfold String.leb.
  destruct (String.compare s1 s2) eqn:E12; try discriminate;
    destruct (String.compare s2 s3) eqn:E23; try discriminate; intros _ _.
  - apply String.compare_eq_iff in E12, E23. subst.
    pose proof (proj2 (OrderedTypeEx.String_as_OT.cmp_eq s3 s3) eq_refl) as H.
    unfold OrderedTypeEx.String_as_OT.cmp in H. now rewrite H.
  - apply String.compare_eq_iff in E12. subst. now rewrite E23.
  - apply String.compare_eq_iff in E23. subst. now rewrite E12.
  - apply OrderedTypeEx.String_as_OT.cmp_lt in E12, E23.
    pose proof (OrderedTypeEx.String_as_OT.lt_trans _ _ _ E12 E23) as H.
    apply OrderedTypeEx.String_as_OT.cmp_lt in H.
    unfold OrderedTypeEx.String_as_OT.cmp in H. now rewrite H.
Qed.

Lemma ranked_before_precedes (a b : ScoreResult) :
  ranked_before a b = true <-> precedes a b.
Proof.
  unfold ranked_before, precedes.
  destruct (Qcompare_spec (model_score b) (model_score a)) as [E|L|G].
  - split; [intros H; right; split; [now symmetry|exact H]|].
    intros [H|[_ H]]; [|exact H].
    rewrite E in H. now apply Qlt_irrefl in H.
  - split; [now left|reflexivity].
  - split; [discriminate|].
    intros [H|[H _]].
    + exfalso. apply (Qlt_irrefl (model_score a)).
      now apply Qlt_trans with (model_score b).
    + rewrite H in G. now apply Qlt_irrefl in G.
Qed.

Lemma precedes_total (a b : ScoreResult) :
  ranked_before a b = false -> precedes b a.
Proof.
  unfold ranked_before, precedes.
  destruct (Qcompare_spec (model_score b) (model_score a)) as [E|L|G].
  - intros H. right. split; [exact E|].
    destruct (String.leb_total (model_name a) (model_name b)); congruence.
  - discriminate.
  - intros _. now left.
Qed.

#[local] Instance precedes_trans : Transitive precedes.
Proof.
  intros a b c [Hab|[Eab Nab]] [Hbc|[Ebc Nbc]]; unfold precedes.
  - left. now apply Qlt_trans with (model_score b).
  - left. now rewrite <- Ebc.
  - left. now rewrite Eab.
  - right. split.
    + now rewrite Eab.
    + now apply leb_trans with (model_name b).
Qed.

Lemma precedes_same_name (a b : ScoreResult) :
  precedes a b -> precedes b a -> model_name a = model_name b.
Proof.
  intros [Hab|[Eab Nab]] [Hba|[Eba Nba]].
  - exfalso. apply (Qlt_irrefl (model_score a)).
    now apply Qlt_trans with (model_score b).
  - rewrite Eba in Hab. now apply Qlt_irrefl in Hab.
  - rewrite Eab in Hba. now apply Qlt_irrefl in Hba.
  - now apply String.leb_antisym.
Qed.

Lemma insert_perm (x : ScoreResult) (l : list ScoreResult) :
  Permutation (insert x l) (x :: l).
Proof.
  induction l as [|y l IH]; simpl; [reflexivity|].
  destruct (ranked_before x y); [reflexivity|].
  rewrite IH. apply perm_swap.
Qed.

Lemma sort_perm (l : list ScoreResult) : Permutation (sort l) l.
Proof.
  induction l as [|x l IH]; simpl; [reflexivity|].
  rewrite insert_perm. now constructor.
Qed.

Lemma insert_HdRel (x y : ScoreResult) (l : list ScoreResult) :
  precedes y x -> HdRel precedes y l -> HdRel precedes y (insert x l).
Proof.
  intros Hyx Hl. destruct l as [|z l]; simpl.
  - now constructor.
  - destruct (ranked_before x z); constructor; trivial.
    now apply HdRel_inv in Hl.
Qed.

Lemma insert_sorted (x : ScoreResult) (l : list ScoreResult) :
  Sorted precedes l -> Sorted precedes (insert x l).
Proof.
  induction l as [|y l IH]; intros Hl; simpl.
  - repeat constructor.
  - destruct (ranked_before x y) eqn:E.
    + constructor; [exact Hl|].
      constructor. now apply ranked_before_precedes.
    + apply Sorted_inv in Hl as [Hl Hy].
      constructor; [now apply IH|].
      apply insert_HdRel; [now apply precedes_total|exact Hy].
Qed.

Lemma sort_sorted (l : list ScoreResult) : StronglySorted precedes (sort l).
Proof.
  apply Sorted_StronglySorted; [exact precedes_trans|].
  induction l as [|x l IH]; simpl; [constructor|].
  now apply insert_sorted.
Qed.

(** Two rankings of the same results, whose names are all different, are
    the same list. *)
Lemma ranking_unique (l1 l2 : list ScoreResult) :
  NoDup (map model_name l1) ->
  Permutation l1 l2 ->
  StronglySorted precedes l1 -> StronglySorted precedes l2 ->
  l1 = l2.
Proof.
  revert l2. induction l1 as [|a l1 IH]; intros l2 Hnd Hp H1 H2.
  - apply Permutation_nil in Hp. now subst.
  - destruct l2 as [|b l2].
    { apply Permutation_sym, Permutation_nil in Hp. discriminate. }
    apply StronglySorted_inv in H1 as [H1 Ha].
    apply StronglySorted_inv in H2 as [H2 Hb].
    simpl in Hnd. apply NoDup_cons_iff in Hnd as [Hnin Hnd].
    assert (Hab : a = b).
    { assert (Hin_a : In a (b :: l2))
        by (apply (Permutation_in _ Hp); now left).
      assert (Hin_b : In b (a :: l1))
        by (apply (Permutation_in _ (Permutation_sym Hp)); now left).
      destruct Hin_a as [Hba|Hin_a]; [now symmetry|].
      destruct Hin_b as [Hab|Hin_b]; [exact Hab|].
      exfalso. apply Hnin.
      rewrite (precedes_same_name
                 (proj1 (Forall_forall _ _) Ha b Hin_b)
                 (proj1 (Forall_forall _ _) Hb a Hin_a)).
      now apply in_map. }
    subst b. f_equal.
    apply IH; trivial.
    now apply Permutation_cons_inv in Hp.
Qed.

Lemma mapM_Forall2 {A B : Type} (f : A -> result B)
    (xs : list A) (ys : list B) :
  mapM f xs = Ok ys <-> Forall2 (fun x y => f x = Ok y) xs ys.
Proof.
  revert ys. induction xs as [|x xs IH]; intros ys; simpl.
  - split.
    + intros H. injection H as <-. constructor.
    + intros H. inversion H. reflexivity.
  - split.
    + destruct (f x) as [y|e] eqn:Ex; simpl; [|discriminate].
      destruct (mapM f xs) as [ys'|e] eqn:Exs; simpl; [|discriminate].
      intros H. injection H as <-.
      constructor; [exact Ex|]. now apply IH.
    + intros H. inversion H as [|x' y xs' ys' Hxy Hrest]; subst.
      rewrite Hxy. simpl.
      apply IH in Hrest. rewrite Hrest. reflexivity.
Qed.

Lemma mapM_defined {A B : Type} (f : A -> result B) (xs : list A) :
  (forall x, In x xs -> exists y, f x = Ok y) ->
  exists ys, mapM f xs = Ok ys.
Proof.
  induction xs as [|x xs IH]; intros H; simpl.
  - now exists [].
  - destruct (H x (or_introl eq_refl)) as [y Hy].
    destruct IH as [ys Hys]; [intros; apply H; now right|].
    exists (y :: ys). now rewrite Hy, Hys.
Qed.

Section ModelScorerFacts.
Variable score : RateMatrix -> list (list Z) -> result Q.

Lemma score_result_name
    (count_matrix : list (list Z)) (m : RateMatrix) (r : ScoreResult) :
  score_result score count_matrix m = Ok r ->
  model_name r = name m /\ score m count_matrix = Ok (model_score r).
Proof.
  unfold score_result.
  destruct (score m count_matrix) as [s|e]; simpl; [|discriminate].
  intros H. injection H as <-. now split.
Qed.

Lemma scored_names
    (count_matrix : list (list Z)) (candidates : list RateMatrix)
    (scored : list ScoreResult) :
  Forall2 (fun m r => score_result score count_matrix m = Ok r)
          candidates scored ->
  map model_name scored = map name candidates.
Proof.
  induction 1 as [|m r ms rs Hmr _ IH]; simpl; [reflexivity|].
  apply score_result_name in Hmr as [-> _]. now rewrite IH.
Qed.

(** C7.  When every candidate can be scored, [rank] scores each of them
    and returns the results ordered by descending score, equal scores by
    name; for candidates with different names the ranking is the same in
    whatever order they are given. *)
Theorem rank_sorted_and_deterministic
    (candidates candidates' : list RateMatrix)
    (count_matrix : list (list Z)) :
  (forall m, In m candidates -> exists s, score m count_matrix = Ok s) ->
  NoDup (map name candidates) ->
  Permutation candidates candidates' ->
  exists scored results,
    Forall2 (fun m r => model_name r = name m
                        /\ score m count_matrix = Ok (model_score r))
            candidates scored /\
    Permutation scored results /\
    StronglySorted precedes results /\
    rank score candidates count_matrix = Ok results /\
    rank score candidates' count_matrix = Ok results.
Proof.
  intros Hscore Hnd Hperm.
  destruct (@mapM_defined _ _ (score_result score count_matrix) candidates)
    as [scored Hscored].
  { intros m Hm. destruct (Hscore m Hm) as [s Hs].
    unfold score_result. rewrite Hs. simpl. eauto. }
  pose proof (proj1 (mapM_Forall2 _ _ _) Hscored) as HF.
  destruct (Permutation_Forall2 Hperm HF) as (scored' & Hperm' & HF').
  pose proof (proj2 (mapM_Forall2 _ _ _) HF') as Hscored'.
  exists scored, (sort scored).
  split; [|split; [|split; [|split]]].
  - eapply Forall2_impl; [|exact HF].
    intros m r. apply score_result_name.
  - symmetry. apply sort_perm.
  - apply sort_sorted.
  - unfold rank. rewrite Hscored. reflexivity.
  - unfold rank. rewrite Hscored'. simpl. f_equal.
    symmetry. apply ranking_unique.
    + apply (Permutation_NoDup (l := map model_name scored)).
      * apply Permutation_map. symmetry. apply sort_perm.
      * now rewrite (@scored_names _ _ _ HF).
    + rewrite sort_perm, Hperm'. symmetry. apply sort_perm.
    + apply sort_sorted.
    + apply sort_sorted.
Qed.

End ModelScorerFacts.

(** ** The theorems at the sample models *)

Lemma three_state_valid : valid Models_tolerance three_state.
Proof.
  exists (init "three" 3), [1; 2; 3], [1 # 2; 1 # 4; 1 # 4].
  reflexivity.
Defined.

Lemma build_Q_rows_sum_to_zero_witness :
  valid Models_tolerance three_state /\
  (1 < k three_state)%nat /\
  (forall j, (j < k three_state)%nat -> 1%nat <> j ->
     entry (build_Q three_state) 1 j
     = exchangeability three_state 1 j * frequency three_state j) /\
  entry (build_Q three_state) 1 1
  = - Qsum (map (entry (build_Q three_state) 1) (others (k three_state) 1)) /\
  Qsum (nth 1 (build_Q three_state) []) == 0.
Proof.
  assert (H2 : (1 < k three_state)%nat) by (simpl; lia).
  refine (conj three_state_valid (conj H2 _)).
  exact (@build_Q_rows_sum_to_zero Models_tolerance three_state 1%nat
           three_state_valid H2).
Defined.

Lemma sample_count_matrix_total_witness :
  valid Models_tolerance three_state /\
  [1] <> [] /\
  square_transitions stationary_transitions three_state [1] /\
  is_count_matrix (k three_state)
    (fst (sample_count_matrix lcg_random stationary_transitions
            three_state 100 [1] 42%N)) /\
  total
    (fst (sample_count_matrix lcg_random stationary_transitions
            three_state 100 [1] 42%N))
  = Z.of_nat 100.
Proof.
  assert (H2 : [1] <> (@nil Q)) by discriminate.
  assert (H3 : square_transitions stationary_transitions three_state [1]).
  { intros t _. split; [reflexivity|]. repeat constructor. }
  refine (conj three_state_valid (conj H2 (conj H3 _))).
  exact (@sample_count_matrix_total N lcg_random stationary_transitions
           Models_tolerance three_state 100 [1] 42%N
           three_state_valid H2 H3).
Defined.

Lemma rank_sorted_and_deterministic_witness :
  let candidates := [three_state; uniform_state; skewed_state] in
  let candidates' := [skewed_state; uniform_state; three_state] in
  (forall m, In m candidates ->
     exists s, diagonal_score m diagonal_counts = Ok s) /\
  NoDup (map name candidates) /\
  Permutation candidates candidates' /\
  exists scored results,
    Forall2 (fun m r => model_name r = name m
                        /\ diagonal_score m diagonal_counts
                           = Ok (model_score r))
            candidates scored /\
    Permutation scored results /\
    StronglySorted precedes results /\
    rank diagonal_score candidates diagonal_counts = Ok results /\
    rank diagonal_score candidates' diagonal_counts = Ok results.
Proof.
  cbv zeta.
  assert (H1 : forall m,
             In m [three_state; uniform_state; skewed_state] ->
             exists s, diagonal_score m diagonal_counts = Ok s).
  { intros m [<-|[<-|[<-|[]]]]; eexists; reflexivity. }
  assert (H2 : NoDup (map name [three_state; uniform_state; skewed_state])).
  { repeat constructor; simpl; intuition discriminate. }
  assert (H3 : Permutation [three_state; uniform_state; skewed_state]
                           [skewed_state; uniform_state; three_state]).
  { apply (Permutation_rev [three_state; uniform_state; skewed_state]). }
  refine (conj H1 (conj H2 (conj H3 _))).
  exact (@rank_sorted_and_deterministic diagonal_score _ _ diagonal_counts
           H1 H2 H3).
Defined.

End ModelsFacts.

(* ================================================================== *)
(** * More on [read_model] *)

(** ** Lines that stop the loop *)

Lemma first_stop_parts (h : list string) :
  forallb read_past (fst (first_stop h)) = true /\
  match snd (first_stop h) with
  | None => h = fst (first_stop h)
  | Some (line, suf) =>
      h = fst (first_stop h) ++ line :: suf /\ read_past line = false
  end.
Proof.
  induction h as [|line rest IH]; simpl; [auto|].
  destruct (read_past line) eqn:Hl.
  - destruct (first_stop rest) as [pre [[l suf]|]]; simpl in *.
    + destruct IH as (Hpre & -> & Hs). rewrite Hl. auto.
    + destruct IH as [Hpre ->]. rewrite Hl. auto.
  - simpl. auto.
Qed.

(** A line that is not passed over is empty, or it is no comment. *)
Lemma not_read_past_cases (line : string) :
  read_past line = false ->
  line = EmptyString \/
  line <> EmptyString /\ is_comment line = false /\
  (parseable line = true -> is_frequency_line line = true).
Proof.
  unfold read_past. intros H.
  destruct line as [|c rest]; [now left|right].
  split; [discriminate|].
  cbn [String.eqb negb andb] in H.
  unfold is_frequency_line in *.
  destruct (is_comment (String c rest)); [discriminate H|].
  split; [reflexivity|]. intros Hp. rewrite Hp in H.
  cbn [negb andb orb] in *.
  destruct (20 <=? List.length (tokens (String c rest)))%nat;
    [reflexivity|discriminate H].
Qed.

Lemma loop_body_stop (line : string) (r_vals : list Py.pyfloat) :
  read_past line = false ->
  match stop_exit r_vals line with
  | Raised e => loop_body line r_vals = Throw e
  | Broke _ freqs => loop_body line r_vals = Break freqs
  | Exhausted _ => False
  end.
Proof.
  intros H. destruct (not_read_past_cases _ H) as [->|(Hne & Hc & Hf)].
  - reflexivity.
  - rewrite (loop_body_data _ Hne Hc).
    destruct line as [|c rest]; [congruence|].
    unfold stop_exit.
    destruct (first_bad_token (String c rest)) eqn:Hb; [reflexivity|].
    apply parseable_no_bad_token in Hb. specialize (Hf Hb).
    unfold is_frequency_line in Hf. rewrite Hc in Hf.
    cbn [negb andb] in Hf. apply Nat.leb_le in Hf.
    destruct (Nat.ltb_spec (List.length (tokens (String c rest))) 20);
      [lia|reflexivity].
Qed.

Lemma for_loop_stop
    (line : string) (suf : list string) (r_vals : list Py.pyfloat) :
  read_past line = false ->
  for_loop (line :: suf) r_vals = (stop_exit r_vals line, suf).
Proof.
  intros H. pose proof (@loop_body_stop line r_vals H) as Hb.
  cbn [for_loop].
  destruct (stop_exit r_vals line) as [r|r f|e] eqn:Hs;
    [contradiction| |]; rewrite Hb; [|reflexivity].
  f_equal. f_equal.
  destruct line as [|c rest]; [discriminate Hs|].
  unfold stop_exit in Hs.
  destruct (first_bad_token (String c rest)); [discriminate Hs|].
  now injection Hs.
Qed.

Lemma for_loop_by_lines (h : list string) :
  for_loop h [] = loop_by_lines h.
Proof.
  unfold loop_by_lines.
  pose proof (first_stop_parts h) as [Hpre Hh].
  destruct (first_stop h) as [pre [[line suf]|]]; cbn [fst snd] in *.
  - destruct Hh as [-> Hl].
    now rewrite (for_loop_prefix _ _ _ Hpre), (@for_loop_stop _ _ _ Hl).
  - subst h. rewrite <- (app_nil_r pre) at 1.
    now rewrite (for_loop_prefix _ _ _ Hpre).
Qed.

(** Once the loop has stopped, at a [break] or at an exception, more
    lines in the stream change nothing. *)
Lemma for_loop_stopped_app
    (h extra : list string) (r_vals : list Py.pyfloat) :
  forallb read_past h = false ->
  for_loop (h ++ extra) r_vals =
  (fst (for_loop h r_vals), snd (for_loop h r_vals) ++ extra).
Proof.
  revert r_vals. induction h as [|line rest IH]; intros r_vals H.
  - discriminate H.
  - cbn [for_loop app].
    destruct (loop_body line r_vals) as [r'|f|e] eqn:Hb; [|reflexivity..].
    apply IH. cbn [forallb] in H.
    now rewrite (loop_body_continue_read_past _ _ Hb) in H.
Qed.

(** ** Whitespace *)

Lemma split_from_all_space (word ws : string) :
  all_space ws = true ->
  Py.split_from word ws = Py.split_from word EmptyString.
Proof.
  revert word. induction ws as [|c ws IH]; intros word H; [reflexivity|].
  cbn [all_space] in H. apply andb_true_iff in H as [Hc Hws].
  cbn [Py.split_from]. rewrite Hc.
  destruct word; rewrite (IH _ Hws); reflexivity.
Qed.

Lemma split_from_app_space (word s ws : string) :
  all_space ws = true ->
  Py.split_from word (String.append s ws) = Py.split_from word s.
Proof.
  intros H. revert word.
  induction s as [|c s IH]; intros word.
  - now apply split_from_all_space.
  - cbn [String.append Py.split_from].
    destruct (Py.isspace c); [destruct word|]; now rewrite IH.
Qed.

Lemma loop_body_all_space (line : string) (r_vals : list Py.pyfloat) :
  line <> EmptyString -> all_space line = true ->
  loop_body line r_vals = Continue r_vals.
Proof.
  intros Hne Hs.
  destruct (is_comment line) eqn:Hc; [now apply loop_body_comment|].
  rewrite (loop_body_data _ Hne Hc).
  assert (Ht : tokens line = []).
  { unfold tokens, Py.split.
    now rewrite (@split_from_all_space EmptyString line Hs). }
  unfold first_bad_token, float_values. rewrite Ht. cbn.
  now rewrite app_nil_r.
Qed.

Lemma loop_body_app_space (line ws : string) (r_vals : list Py.pyfloat) :
  line <> EmptyString -> all_space ws = true ->
  loop_body (String.append line ws) r_vals = loop_body line r_vals.
Proof.
  intros Hne Hs. destruct line as [|c rest]; [congruence|].
  unfold loop_body. cbn [String.append].
  destruct (Ascii.eqb c "#"); [reflexivity|].
  unfold Py.split.
  change (String c (String.append rest ws))
    with (String.append (String c rest) ws).
  now rewrite (@split_from_app_space _ _ _ Hs).
Qed.

Lemma for_loop_app_space
    (h : list string) (ws : string) (r_vals : list Py.pyfloat) :
  all_space ws = true ->
  Forall (fun line => line <> EmptyString) h ->
  fst (for_loop (map (fun line => String.append line ws) h) r_vals)
  = fst (for_loop h r_vals).
Proof.
  intros Hs Hh. revert r_vals.
  induction Hh as [|line rest Hne _ IH]; intros r_vals; [reflexivity|].
  cbn [map for_loop]. rewrite (@loop_body_app_space _ _ _ Hne Hs).
  destruct (loop_body line r_vals); [apply IH|reflexivity..].
Qed.

Lemma for_loop_without_line
    (pre suf : list string) (line : string) (r_vals : list Py.pyfloat) :
  (forall r, loop_body line r = Continue r) ->
  fst (for_loop (pre ++ line :: suf) r_vals)
  = fst (for_loop (pre ++ suf) r_vals).
Proof.
  intros Hl. revert r_vals.
  induction pre as [|l pre IH]; intros r_vals; simpl.
  - now rewrite Hl.
  - destruct (loop_body l r_vals); [apply IH|reflexivity..].
Qed.

(** The values gathered from lines are the values of their tokens. *)
Lemma r_values_data_tokens (lines : list string) :
  r_values lines =
  flat_map (fun t => match Py.float t with Some v => [v] | None => [] end)
           (data_tokens lines).
Proof.
  unfold r_values, data_tokens.
  induction (filter (fun l => negb (is_comment l)) lines) as [|l ls IH].
  - reflexivity.
  - cbn [flat_map]. rewrite flat_map_app, IH. reflexivity.
Qed.

Section ReadModelMore.
Context {RM : RateMatrixClass}.

(** The outcome of [read_model] for every stream, told from its lines.
    When every line is passed over, it is [IOError]; otherwise the first
    line that is not passed over decides: [IndexError] when it is the
    empty string, [ValueError] for its first token that is no float, and
    else a call of [set_r_and_freq] with the values gathered before the
    line and the values of the line.  The lines after it stay unread. *)
Theorem read_model_by_lines (h : list string) (model_name : string) :
  read_model h model_name =
  (finish model_name (fst (loop_by_lines h)), snd (loop_by_lines h)).
Proof.
  rewrite read_model_finish. now rewrite for_loop_by_lines.
Qed.

(** [read_model] returns a rate matrix only for a stream with a first
    frequency line whose tokens are floats, after lines that are all
    passed over, and the matrix is what [set_r_and_freq] returned for the
    values of those lines. *)
Theorem read_model_returns_only
    (h rest : list string) (model_name : string) (q : RateMatrix) :
  read_model h model_name = (Ok q, rest) ->
  exists pre fl,
    h = pre ++ fl :: rest /\
    forallb read_past pre = true /\
    is_frequency_line fl = true /\ parseable fl = true /\
    set_r_and_freq (RateMatrix_init model_name)
                   (r_values pre) (float_values fl) = Ok q.
Proof.
  rewrite read_model_finish, for_loop_by_lines. unfold loop_by_lines.
  pose proof (first_stop_parts h) as [Hpre Hh].
  destruct (first_stop h) as [pre [[line suf]|]]; cbn [fst snd] in *;
    [|discriminate].
  destruct Hh as [-> Hl]. intros H.
  destruct (not_read_past_cases _ Hl) as [->|(Hne & Hc & Hf)];
    [discriminate H|].
  destruct line as [|c l]; [congruence|].
  unfold stop_exit in H.
  destruct (first_bad_token (String c l)) eqn:Hb; [discriminate H|].
  apply parseable_no_bad_token in Hb.
  injection H as Hq <-.
  exists pre, (String c l). auto.
Qed.

(** A line of whitespace only is skipped like a comment: the outcome of
    [read_model] is the same with or without it. *)
Theorem read_model_skips_blank_line
    (pre suf : list string) (line model_name : string) :
  line <> EmptyString -> all_space line = true ->
  fst (read_model (pre ++ line :: suf) model_name)
  = fst (read_model (pre ++ suf) model_name).
Proof.
  intros Hne Hs. rewrite !read_model_finish. cbn [fst].
  rewrite (@for_loop_without_line pre suf line); [reflexivity|].
  intros r. now apply loop_body_all_space.
Qed.

(** Whitespace at the end of the lines, such as a carriage return before
    the line feed, or a line feed that is missing, does not change the
    outcome. *)
Theorem read_model_trailing_space
    (h : list string) (ws model_name : string) :
  all_space ws = true ->
  Forall (fun line => line <> EmptyString) h ->
  fst (read_model (map (fun line => String.append line ws) h) model_name)
  = fst (read_model h model_name).
Proof.
  intros Hs Hh. rewrite !read_model_finish. cbn [fst].
  now rewrite for_loop_app_space.
Qed.

(** The way the exchangeabilities are laid out in lines does not matter:
    two runs of lines that are passed over and whose non-comment lines
    hold the same tokens in the same order, in front of the same lines,
    give the same outcome. *)
Theorem read_model_layout
    (pre1 pre2 rest : list string) (model_name : string) :
  forallb read_past pre1 = true ->
  forallb read_past pre2 = true ->
  data_tokens pre1 = data_tokens pre2 ->
  read_model (pre1 ++ rest) model_name = read_model (pre2 ++ rest) model_name.
Proof.
  intros H1 H2 Ht. rewrite !read_model_finish.
  rewrite (for_loop_prefix _ _ _ H1), (for_loop_prefix _ _ _ H2).
  now rewrite !r_values_data_tokens, Ht.
Qed.

(** A stream that yields the empty string after lines that are passed
    over makes [line[0]] raise [IndexError]. *)
Theorem read_model_empty_string
    (pre suf : list string) (model_name : string) :
  forallb read_past pre = true ->
  read_model (pre ++ EmptyString :: suf) model_name = (Raise IndexError, suf).
Proof.
  intros Hpre. rewrite read_model_finish, (for_loop_prefix _ _ _ Hpre).
  reflexivity.
Qed.

(** Once [read_model] has stopped before the end of the stream, at the
    frequency line or at an exception, lines added to the stream are left
    unread and the outcome is the same. *)
Theorem read_model_stopped
    (h extra : list string) (model_name : string) :
  forallb read_past h = false ->
  read_model (h ++ extra) model_name =
  (fst (read_model h model_name), snd (read_model h model_name) ++ extra).
Proof.
  intros H. rewrite !read_model_finish. cbn [fst snd].
  now rewrite (@for_loop_stopped_app _ _ _ H).
Qed.

End ReadModelMore.

(** The theorems at the sample streams. *)

Lemma read_model_returns_only_witness :
  exists q,
    @read_model Models_RateMatrix toy_model "toy" = (Ok q, skipn 22 toy_model)
    /\
    exists pre fl,
      toy_model = pre ++ fl :: skipn 22 toy_model /\
      forallb read_past pre = true /\
      is_frequency_line fl = true /\ parseable fl = true /\
      @set_r_and_freq Models_RateMatrix
        (@RateMatrix_init Models_RateMatrix "toy")
        (r_values pre) (float_values fl) = Ok q.
Proof.
  eexists.
  assert (H : @read_model Models_RateMatrix toy_model "toy"
              = (Ok _, skipn 22 toy_model)) by (vm_compute; reflexivity).
  refine (conj H _).
  exact (@read_model_returns_only Models_RateMatrix _ _ _ _ H).
Defined.

Lemma read_model_skips_blank_line_witness :
  let blank := String " " (String (ascii_of_nat 9) LF) in
  blank <> EmptyString /\ all_space blank = true /\
  fst (@read_model Models_RateMatrix
         (firstn 3 toy_model ++ blank :: skipn 3 toy_model) "toy")
  = fst (@read_model Models_RateMatrix
           (firstn 3 toy_model ++ skipn 3 toy_model) "toy").
Proof.
  cbv zeta.
  assert (H1 : String " " (String (ascii_of_nat 9) LF) <> EmptyString)
    by discriminate.
  assert (H2 : all_space (String " " (String (ascii_of_nat 9) LF)) = true)
    by reflexivity.
  refine (conj H1 (conj H2 _)).
  exact (@read_model_skips_blank_line Models_RateMatrix _ _ _ _ H1 H2).
Defined.

Lemma read_model_trailing_space_witness :
  let crlf := String (ascii_of_nat 13) LF in
  let h := ["# dos file"; "1 2"; "x"]%string in
  all_space crlf = true /\
  Forall (fun line => line <> EmptyString) h /\
  fst (@read_model Models_RateMatrix
         (map (fun line => String.append line crlf) h) "toy")
  = fst (@read_model Models_RateMatrix h "toy").
Proof.
  cbv zeta.
  assert (H1 : all_space (String (ascii_of_nat 13) LF) = true)
    by reflexivity.
  assert (H2 : Forall (fun line => line <> EmptyString)
                      ["# dos file"; "1 2"; "x"]%string)
    by (repeat constructor; discriminate).
  refine (conj H1 (conj H2 _)).
  exact (@read_model_trailing_space Models_RateMatrix _ _ _ H1 H2).
Defined.

Lemma read_model_layout_witness :
  forallb read_past (firstn 21 toy_model) = true /\
  forallb read_past flowing_rows = true /\
  data_tokens (firstn 21 toy_model) = data_tokens flowing_rows /\
  @read_model Models_RateMatrix
    (firstn 21 toy_model ++ skipn 21 toy_model) "toy"
  = @read_model Models_RateMatrix (flowing_rows ++ skipn 21 toy_model) "toy".
Proof.
  assert (H1 : forallb read_past (firstn 21 toy_model) = true)
    by reflexivity.
  assert (H2 : forallb read_past flowing_rows = true) by reflexivity.
  assert (H3 : data_tokens (firstn 21 toy_model) = data_tokens flowing_rows)
    by reflexivity.
  refine (conj H1 (conj H2 (conj H3 _))).
  exact (@read_model_layout Models_RateMatrix _ _ _ _ H1 H2 H3).
Defined.

Lemma read_model_empty_string_witness :
  forallb read_past truncated_model = true /\
  @read_model Models_RateMatrix
    (truncated_model ++ EmptyString :: toy_model) "toy"
  = (Raise IndexError, toy_model).
Proof.
  assert (H1 : forallb read_past truncated_model = true) by reflexivity.
  refine (conj H1 _).
  exact (@read_model_empty_string Models_RateMatrix _ _ _ H1).
Defined.

Lemma read_model_stopped_witness :
  forallb read_past stray_word_model = false /\
  @read_model Models_RateMatrix (stray_word_model ++ toy_model) "toy"
  = (fst (@read_model Models_RateMatrix stray_word_model "toy"),
     snd (@read_model Models_RateMatrix stray_word_model "toy") ++ toy_model).
Proof.
  assert (H1 : forallb read_past stray_word_model = false) by reflexivity.
  refine (conj H1 _).
  exact (@read_model_stopped Models_RateMatrix _ _ _ H1).
Defined.

(* ================================================================== *)
(** * Properties of [setup.py] *)

Module SetupFacts.
Import Setup.

(** ** Strings *)

Lemma append_nil_r (s : string) : String.append s EmptyString = s.
Proof. induction s; cbn; congruence. Qed.

Lemma append_assoc (a b c : string) :
  String.append (String.append a b) c = String.append a (String.append b c).
Proof. induction a; cbn; congruence. Qed.

Lemma list_of_append (a b : string) :
  list_ascii_of_string (String.append a b)
  = list_ascii_of_string a ++ list_ascii_of_string b.
Proof. induction a; cbn; congruence. Qed.

Lemma reverse_involutive (s : string) : reverse (reverse s) = s.
Proof.
  unfold reverse.
  now rewrite list_ascii_of_string_of_list_ascii, rev_involutive,
    string_of_list_ascii_of_string.
Qed.

Lemma reverse_append_char (s : string) (c : ascii) :
  reverse (String.append s (String c EmptyString)) = String c (reverse s).
Proof.
  unfold reverse. rewrite list_of_append. cbn [list_ascii_of_string].
  now rewrite rev_unit.
Qed.

(** Stripping the apostrophes around a text that has none at its ends
    gives the text back. *)
Lemma strip_quoted (v : string) :
  unquoted v = true ->
  strip "'" (String "'" (String.append v "'")) = v.
Proof.
  intros H. unfold strip.
  change (lstrip "'" (String "'" (String.append v "'")))
    with (lstrip "'" (String.append v "'")).
  destruct v as [|c v]; [reflexivity|].
  unfold unquoted in H.
  destruct (reverse (String c v)) as [|d r] eqn:Hr.
  { pose proof (reverse_involutive (String c v)) as Hi.
    rewrite Hr in Hi. discriminate Hi. }
  apply andb_true_iff in H as [Hc Hd].
  apply negb_true_iff in Hc, Hd.
  cbn [String.append lstrip in_chars list_ascii_of_string existsb].
  rewrite Hc. cbn [orb].
  change (String c (String.append v "'"))
    with (String.append (String c v) "'").
  rewrite reverse_append_char, Hr.
  cbn [lstrip in_chars list_ascii_of_string existsb].
  rewrite Ascii.eqb_refl. cbn [orb].
  rewrite Hd. cbn [orb].
  rewrite <- Hr. apply reverse_involutive.
Qed.

(** ** Tokens *)

Lemma split_from_no_space (word w rest : string) :
  no_space w = true ->
  Py.split_from word (String.append w rest)
  = Py.split_from (String.append word w) rest.
Proof.
  revert word. induction w as [|c w IH]; intros word H.
  - cbn [String.append]. now rewrite append_nil_r.
  - unfold no_space in H. cbn [list_ascii_of_string forallb] in H.
    apply andb_true_iff in H as [Hc Hw]. apply negb_true_iff in Hc.
    cbn [String.append Py.split_from]. rewrite Hc.
    rewrite (IH _ Hw). f_equal.
    rewrite append_assoc. reflexivity.
Qed.

Lemma split_version_line (v : string) :
  no_space v = true ->
  Py.split (version_line v)
  = ["__version__"; "="; String "'" (String.append v "'")]%string.
Proof.
  intros H. unfold version_line, Py.split.
  cbn. rewrite (@split_from_no_space _ _ _ H). reflexivity.
Qed.

(** ** The loop of [read_version_string] *)

Lemma version_body_cases (line : string) (versionstring : option string) :
  version_body line versionstring =
  match version_of_line line with
  | Some v => Return (strip "'" v)
  | None =>
      Next (if three_tokens line
            then Some (nth 2 (Py.split line) EmptyString)
            else versionstring)
  end.
Proof.
  unfold version_body, version_of_line, three_tokens.
  destruct (Py.split line) as [|a [|b [|c [|d l]]]]; try reflexivity.
  destruct (_ && _); reflexivity.
Qed.

Lemma version_loop_by_lines (h : list string) (versionstring : option string) :
  version_loop h versionstring =
  match first_version h with
  | Some v => Some (strip "'" v)
  | None =>
      match versionstring with
      | None =>
          if existsb three_tokens h then None
          else Some "unknown_version"%string
      | Some _ => None
      end
  end.
Proof.
  revert versionstring.
  induction h as [|line rest IH]; intros versionstring; [reflexivity|].
  cbn [version_loop first_version existsb].
  rewrite version_body_cases.
  destruct (version_of_line line) as [v|]; [reflexivity|].
  rewrite IH. destruct (first_version rest); [reflexivity|].
  destruct (three_tokens line), versionstring; reflexivity.
Qed.

Lemma first_version_app (pre rest : list string) :
  first_version pre = None ->
  first_version (pre ++ rest) = first_version rest.
Proof.
  induction pre as [|line pre IH]; cbn; [reflexivity|].
  destruct (version_of_line line); [discriminate|exact IH].
Qed.

Section FilesFacts.
Variable open : string -> result (list string).

(** [read_version_string] returns the third token, without the
    apostrophes at its ends, of the first line whose tokens are
    [__version__], [=] and one more.  When no line is like that, it
    returns ['unknown_version'] if no line has exactly three tokens, and
    [None] if one has. *)
Theorem read_version_string_result (filename : string) (h : list string) :
  open filename = Ok h ->
  read_version_string open filename =
  Ok match first_version h with
     | Some v => Some (strip "'" v)
     | None =>
         if existsb three_tokens h then None
         else Some "unknown_version"%string
     end.
Proof.
  intros H. unfold read_version_string. rewrite H. cbn [bind].
  now rewrite version_loop_by_lines.
Qed.

(** A version written as [__version__ = 'v'] is read back as [v], when
    [v] has no whitespace and no apostrophe at its ends, and no line
    before carries a version. *)
Theorem read_version_string_round_trip
    (filename v : string) (pre suf : list string) :
  open filename = Ok (pre ++ version_line v :: suf) ->
  first_version pre = None ->
  no_space v = true ->
  unquoted v = true ->
  read_version_string open filename = Ok (Some v).
Proof.
  intros H Hpre Hs Hq. unfold read_version_string. rewrite H. cbn [bind].
  rewrite version_loop_by_lines, (@first_version_app pre _ Hpre).
  cbn [first_version]. unfold version_of_line.
  rewrite (@split_version_line v Hs). cbn [String.eqb Ascii.eqb Bool.eqb andb].
  now rewrite (@strip_quoted v Hq).
Qed.

End FilesFacts.

(** ** The loop over the README *)

Lemma readme_fold (fh : list string) (at_top : bool) (text : string) :
  fold_left readme_step fh (at_top, text) =
  (at_top && forallb is_badge fh,
   String.append text (fold_right String.append EmptyString fh)).
Proof.
  revert at_top text.
  induction fh as [|line fh IH]; intros at_top text.
  - cbn. now rewrite andb_true_r, append_nil_r.
  - cbn [fold_left readme_step fold_right forallb]. rewrite IH.
    f_equal.
    + destruct at_top, (is_badge line); reflexivity.
    + apply append_assoc.
Qed.

(** The long description is the whole README, every line in order: the
    badge lines at its top are appended like the others.  [at_top] ends
    true only when every line is a badge line. *)
Theorem long_description_whole_readme (fh : list string) :
  long_description fh = fold_right String.append EmptyString fh /\
  fst (readme_loop fh) = forallb is_badge fh.
Proof.
  unfold long_description, readme_loop. rewrite readme_fold.
  split; reflexivity.
Qed.

Lemma read_version_string_result_witness :
  version_files "modelmatcher/version.py" = Ok version_py /\
  read_version_string version_files "modelmatcher/version.py" =
  Ok match first_version version_py with
     | Some v => Some (strip "'" v)
     | None =>
         if existsb three_tokens version_py then None
         else Some "unknown_version"%string
     end.
Proof.
  assert (H : version_files "modelmatcher/version.py" = Ok version_py)
    by reflexivity.
  refine (conj H _).
  exact (@read_version_string_result version_files _ _ H).
Defined.

Lemma read_version_string_round_trip_witness :
  let files := fun _ : string =>
    Ok (firstn 2 version_py ++ version_line "1.2.3" :: skipn 3 version_py) in
  files "modelmatcher/version.py"%string
  = Ok (firstn 2 version_py ++ version_line "1.2.3" :: skipn 3 version_py) /\
  first_version (firstn 2 version_py) = None /\
  no_space "1.2.3" = true /\
  unquoted "1.2.3" = true /\
  read_version_string files "modelmatcher/version.py"
  = Ok (Some "1.2.3"%string).
Proof.
  cbv zeta.
  assert (H2 : first_version (firstn 2 version_py) = None) by reflexivity.
  assert (H3 : no_space "1.2.3" = true) by reflexivity.
  assert (H4 : unquoted "1.2.3" = true) by reflexivity.
  refine (conj eq_refl (conj H2 (conj H3 (conj H4 _)))).
  exact (@read_version_string_round_trip _ "modelmatcher/version.py"%string
           "1.2.3"%string _ _ eq_refl H2 H3 H4).
Defined.

End SetupFacts.
